(** * Portfolio service: holdings fetch, summary aggregation, quarterly grouping

    A shallow embedding of [PortfolioService] (the TypeScript service that
    sits between the dashboard and the hosted [portfolio_holdings] table),
    of the SQL function [get_portfolio_summary] of the migration, and of the
    part of [PortfolioDashboard.loadPortfolioData] that calls the service.

    Numbers.  Share counts, years and timestamps are integers ([Z]); prices
    and every derived amount are exact rationals ([Qc], with Leibniz
    equality).  Rounding of IEEE doubles on the client and of Postgres
    [numeric] division on the server is outside this model.

    Strings are [string] (sequences of 8-bit code units); the default
    [Array.prototype.sort] order is the code-unit order [String.compare]. *)

From Stdlib Require Import ZArith QArith Qcanon List String Ascii Lia.
From Stdlib Require Import Sorting.Sorted Sorting.Permutation.
From Stdlib Require Import Structures.OrderedTypeEx.
From stdpp Require Import base numbers strings pretty gmap.

Import ListNotations.
Local Open Scope Z_scope.

(* ------------------------------------------------------------------ *)
(** ** Data model *)

(** [interface PortfolioHolding] / [CREATE TABLE portfolio_holdings]. *)
Record PortfolioHolding := {
  id : string;
  user_id : string;
  stock_symbol : string;
  company_name : string;
  shares : Z;
  purchase_price : Qc;
  current_price : Qc;
  quarter : string;
  year : Z;
  created_at : Z;
  updated_at : Z
}.

(** The [CHECK] constraints of the table: [shares > 0],
    [purchase_price > 0], [current_price > 0], [year >= 2020]. *)
Definition holding_checks (h : PortfolioHolding) : Prop :=
  0 < shares h /\ (0 < purchase_price h)%Qc /\ (0 < current_price h)%Qc
  /\ 2020 <= year h.

(** [interface PortfolioSummary]. *)
Record QuarterPerformance := {
  qp_quarter : string;
  qp_performance : Qc
}.

Record PortfolioSummary := {
  totalValue : Qc;
  totalGainLoss : Qc;
  totalGainLossPercent : Qc;
  totalShares : Z;
  quarterlyPerformance : list QuarterPerformance
}.

(* ------------------------------------------------------------------ *)
(** ** Arithmetic of the client *)

(** [a > b] on numbers. *)
Definition gtb (a b : Qc) : bool :=
  match (a ?= b)%Qc with Gt => true | _ => false end.

Definition hundred : Qc := Qc_of_Z 100.

(** [cost > 0 ? ((value - cost) / cost) * 100 : 0], the expression shared by
    the summary and by each quarterly group. *)
Definition percentReturn (value cost : Qc) : Qc :=
  if gtb cost 0 then ((value - cost) / cost * hundred)%Qc else 0%Qc.

(** The three accumulators declared with [let] before the loop. *)
Record Accumulators := {
  acc_totalValue : Qc;
  acc_totalCost : Qc;
  acc_totalShares : Z
}.

Definition acc_init : Accumulators :=
  {| acc_totalValue := 0%Qc; acc_totalCost := 0%Qc; acc_totalShares := 0 |}.

(** The body of [holdings.forEach(holding => ...)]. *)
Definition accumulate (acc : Accumulators) (holding : PortfolioHolding)
  : Accumulators :=
  let currentValue := (Qc_of_Z (shares holding) * current_price holding)%Qc in
  let costBasis := (Qc_of_Z (shares holding) * purchase_price holding)%Qc in
  {| acc_totalValue := (acc_totalValue acc + currentValue)%Qc;
     acc_totalCost := (acc_totalCost acc + costBasis)%Qc;
     acc_totalShares := acc_totalShares acc + shares holding |}.

(** [Array.prototype.forEach] threading the captured variables. *)
Definition forEach {A S : Type} (xs : list A) (body : S -> A -> S) (s : S) : S :=
  fold_left body xs s.

(** Every local of [getPortfolioSummary] once the loop and the two
    [const] declarations after it have run. *)
Record SummaryLocals := {
  l_totalValue : Qc;
  l_totalCost : Qc;
  l_totalShares : Z;
  l_totalGainLoss : Qc;
  l_totalGainLossPercent : Qc
}.

Definition aggregate (holdings : list PortfolioHolding) : SummaryLocals :=
  let acc := forEach holdings accumulate acc_init in
  let totalGainLoss := (acc_totalValue acc - acc_totalCost acc)%Qc in
  let totalGainLossPercent :=
    if gtb (acc_totalCost acc) 0
    then (totalGainLoss / acc_totalCost acc * hundred)%Qc else 0%Qc in
  {| l_totalValue := acc_totalValue acc;
     l_totalCost := acc_totalCost acc;
     l_totalShares := acc_totalShares acc;
     l_totalGainLoss := totalGainLoss;
     l_totalGainLossPercent := totalGainLossPercent |}.

(** The object literal returned by [getPortfolioSummary]. *)
Definition summaryOf (l : SummaryLocals) (quarterlyData : list QuarterPerformance)
  : PortfolioSummary :=
  {| totalValue := l_totalValue l;
     totalGainLoss := l_totalGainLoss l;
     totalGainLossPercent := l_totalGainLossPercent l;
     totalShares := l_totalShares l;
     quarterlyPerformance := quarterlyData |}.

(** *** The sums of the data model, written as the specification writes them *)

Definition sumQc (l : list Qc) : Qc := fold_right Qcplus 0%Qc l.
Definition sumZ (l : list Z) : Z := fold_right Z.add 0 l.

Definition spec_total_value (hs : list PortfolioHolding) : Qc :=
  sumQc (map (fun h => (Qc_of_Z (shares h) * current_price h)%Qc) hs).
Definition spec_total_cost (hs : list PortfolioHolding) : Qc :=
  sumQc (map (fun h => (Qc_of_Z (shares h) * purchase_price h)%Qc) hs).
Definition spec_total_shares (hs : list PortfolioHolding) : Z :=
  sumZ (map shares hs).

(* ------------------------------------------------------------------ *)
(** ** The remote table and the query builder *)

Inductive Column :=
| col_id | col_user_id | col_stock_symbol | col_company_name | col_shares
| col_purchase_price | col_current_price | col_quarter | col_year
| col_created_at | col_updated_at.

(** A value sent to, or stored in, a column. *)
Inductive JsValue :=
| VString (s : string)
| VInt (n : Z)
| VDec (q : Qc).

Definition cell (h : PortfolioHolding) (c : Column) : JsValue :=
  match c with
  | col_id => VString (id h)
  | col_user_id => VString (user_id h)
  | col_stock_symbol => VString (stock_symbol h)
  | col_company_name => VString (company_name h)
  | col_shares => VInt (shares h)
  | col_purchase_price => VDec (purchase_price h)
  | col_current_price => VDec (current_price h)
  | col_quarter => VString (quarter h)
  | col_year => VInt (year h)
  | col_created_at => VInt (created_at h)
  | col_updated_at => VInt (updated_at h)
  end.

Definition value_eqb (a b : JsValue) : bool :=
  match a, b with
  | VString s, VString t => String.eqb s t
  | VInt n, VInt m => Z.eqb n m
  | VDec p, VDec q => Qc_eq_bool p q
  | _, _ => false
  end.

Definition sign_of (c : comparison) : Z :=
  match c with Lt => -1 | Eq => 0 | Gt => 1 end.

Definition value_compare (a b : JsValue) : Z :=
  match a, b with
  | VString s, VString t => sign_of (String.compare s t)
  | VInt n, VInt m => sign_of (Z.compare n m)
  | VDec p, VDec q => sign_of (Qccompare p q)
  | _, _ => 0
  end.

(** [.select('*')] or [.select('a, b, ...')]. *)
Inductive Selection :=
| SelectAll
| SelectColumns (cs : list Column).

(** What a chain [supabase.from(t).select(s).eq(c, v)...order(c, opts)] has
    collected when it is awaited. *)
Record Query := {
  q_table : string;
  q_select : Selection;
  q_filters : list (Column * JsValue);
  q_order : option (Column * bool)
}.

Definition from (table : string) : Query :=
  {| q_table := table; q_select := SelectAll; q_filters := []; q_order := None |}.

Definition select (s : Selection) (q : Query) : Query :=
  {| q_table := q_table q; q_select := s;
     q_filters := q_filters q; q_order := q_order q |}.

Definition eq_ (c : Column) (v : JsValue) (q : Query) : Query :=
  {| q_table := q_table q; q_select := q_select q;
     q_filters := q_filters q ++ [(c, v)]; q_order := q_order q |}.

Definition order (c : Column) (ascending : bool) (q : Query) : Query :=
  {| q_table := q_table q; q_select := q_select q;
     q_filters := q_filters q; q_order := Some (c, ascending) |}.

Record PostgrestError := {
  message : string;
  code : string
}.

(** The [{ data, error }] pair an awaited query resolves to. *)
Record Response := {
  resp_data : option (list PortfolioHolding);
  resp_error : option PostgrestError
}.

(** The hosted service, seen from the client: what each query resolves to. *)
Definition Remote := Query -> Response.

(** *** Sorting with a comparator

    [Array.prototype.sort(compareFn)] is stable; [compareFn(x, y) > 0] puts
    [y] first.  The same sort stands for [ORDER BY] on the remote side (where
    the order among equal keys is the order of the table). *)

Fixpoint insert_by {A : Type} (cmp : A -> A -> Z) (x : A) (l : list A) : list A :=
  match l with
  | [] => [x]
  | y :: l' => if 0 <? cmp x y then y :: insert_by cmp x l' else x :: y :: l'
  end.

Definition sort_by {A : Type} (cmp : A -> A -> Z) (l : list A) : list A :=
  fold_right (insert_by cmp) [] l.

(** [x] may stand before [y] in the output of [sort_by cmp]. *)
Definition before {A : Type} (cmp : A -> A -> Z) (x y : A) : Prop := cmp x y <= 0.

(** *** A remote that answers from a table *)

Definition matches (h : PortfolioHolding) (f : Column * JsValue) : bool :=
  value_eqb (cell h (fst f)) (snd f).

Definition satisfies (filters : list (Column * JsValue)) (h : PortfolioHolding) : bool :=
  forallb (matches h) filters.

Definition order_rows (o : option (Column * bool)) (rows : list PortfolioHolding)
  : list PortfolioHolding :=
  match o with
  | None => rows
  | Some (c, true) => sort_by (fun a b => value_compare (cell a c) (cell b c)) rows
  | Some (c, false) => sort_by (fun a b => value_compare (cell b c) (cell a c)) rows
  end.

Definition run_query (table : list PortfolioHolding) (q : Query)
  : list PortfolioHolding :=
  order_rows (q_order q) (List.filter (satisfies (q_filters q)) table).

Definition postgrest (table : list PortfolioHolding) : Remote :=
  fun q => {| resp_data := Some (run_query table q); resp_error := None |}.

(** A remote on which every request fails with [e]. *)
Definition unreachable (e : PostgrestError) : Remote :=
  fun _ => {| resp_data := None; resp_error := Some e |}.

(* ------------------------------------------------------------------ *)
(** ** Effects: the cache, the console, and rejected promises *)

Inductive JsAny :=
| AnyHoldings (hs : list PortfolioHolding)
| AnySummary (s : PortfolioSummary)
| AnyStrings (l : list string).

Record CacheEntry := {
  entry_data : JsAny;
  entry_timestamp : Z
}.

(** [private readonly CACHE_DURATION = 5 * 60 * 1000]. *)
Definition CACHE_DURATION : Z := 5 * 60 * 1000.

(** Everything a method of the service can touch besides its arguments: the
    [cache] field of the service object and the console. *)
Record World := {
  cache : gmap string CacheEntry;
  console : list (string * PostgrestError)
}.

Inductive Outcome (A : Type) :=
| Fulfilled (a : A)
| Rejected (e : PostgrestError).
Arguments Fulfilled {A} a.
Arguments Rejected {A} e.

Definition Eff (A : Type) : Type := World -> Outcome A * World.

Definition ret {A} (a : A) : Eff A := fun w => (Fulfilled a, w).

Definition throw {A} (e : PostgrestError) : Eff A := fun w => (Rejected e, w).

Definition bind {A B} (m : Eff A) (k : A -> Eff B) : Eff B :=
  fun w =>
    match m w with
    | (Fulfilled a, w') => k a w'
    | (Rejected e, w') => (Rejected e, w')
    end.

Definition try_catch {A} (body : Eff A) (handler : PostgrestError -> Eff A) : Eff A :=
  fun w =>
    match body w with
    | (Fulfilled a, w') => (Fulfilled a, w')
    | (Rejected e, w') => handler e w'
    end.

Definition console_error (msg : string) (e : PostgrestError) : Eff unit :=
  fun w => (Fulfilled tt, {| cache := cache w; console := console w ++ [(msg, e)] |}).

(** The world after [console.error(msg, e)]. *)
Definition logged (w : World) (msg : string) (e : PostgrestError) : World :=
  snd (console_error msg e w).

(** The value a promise settled with, or [d] when it was rejected. *)
Definition valueOr {A} (d : A) (o : Outcome A) : A :=
  match o with
  | Fulfilled a => a
  | Rejected _ => d
  end.

(** The world with its cache replaced. *)
Definition with_cache (c : gmap string CacheEntry) (w : World) : World :=
  {| cache := c; console := console w |}.

(** A computation whose outcome is fixed by the remote alone: it does not
    look at the world, keeps the cache, and at most appends a fixed list of
    lines to the console. *)
Definition stateless {A} (m : Eff A) : Prop :=
  exists (r : Outcome A) (log : list (string * PostgrestError)),
    forall w, m w = (r, {| cache := cache w; console := console w ++ log |}).

Declare Scope eff_scope.
Delimit Scope eff_scope with eff.
Notation "x <- m ;; k" := (bind m (fun x => k))
  (at level 100, m at next level, right associativity) : eff_scope.
Notation "m ;;; k" := (bind m (fun _ => k))
  (at level 100, right associativity) : eff_scope.

(* ------------------------------------------------------------------ *)
(** ** [get_portfolio_summary]: the aggregation on the remote side *)

(** Nullable SQL values are [option]s; an aggregate over no rows is [NULL]. *)
Definition sql_sum_dec (l : list Qc) : option Qc :=
  match l with
  | [] => None
  | x :: l' => Some (fold_left Qcplus l' x)
  end.

Definition sql_sum_int (l : list Z) : option Z :=
  match l with
  | [] => None
  | x :: l' => Some (fold_left Z.add l' x)
  end.

Definition sql_binop {A B C} (f : A -> B -> C) (a : option A) (b : option B)
  : option C :=
  match a, b with
  | Some x, Some y => Some (f x y)
  | _, _ => None
  end.

(** [CASE WHEN c THEN a ELSE b END]: the [THEN] branch only when [c] is true
    (neither false nor unknown). *)
Definition sql_case {A} (c : option bool) (a b : A) : A :=
  match c with
  | Some true => a
  | _ => b
  end.

(** [RETURNS TABLE(total_value, total_cost, total_gain_loss,
    total_gain_loss_percent, total_shares)]: one row. *)
Record SummaryRow := {
  total_value : option Qc;
  total_cost : option Qc;
  total_gain_loss : option Qc;
  total_gain_loss_percent : option Qc;
  total_shares : option Z
}.

Definition get_portfolio_summary (portfolio_holdings : list PortfolioHolding)
    (target_user_id : string) : SummaryRow :=
  let rows := List.filter (fun h => String.eqb (user_id h) target_user_id)
                portfolio_holdings in
  let sum_value :=
    sql_sum_dec (map (fun h => (Qc_of_Z (shares h) * current_price h)%Qc) rows) in
  let sum_cost :=
    sql_sum_dec (map (fun h => (Qc_of_Z (shares h) * purchase_price h)%Qc) rows) in
  {| total_value := sum_value;
     total_cost := sum_cost;
     total_gain_loss := sql_binop Qcminus sum_value sum_cost;
     total_gain_loss_percent :=
       sql_case (sql_binop gtb sum_cost (Some 0%Qc))
         (sql_binop Qcmult
            (sql_binop Qcdiv (sql_binop Qcminus sum_value sum_cost) sum_cost)
            (Some hundred))
         (Some 0%Qc);
     total_shares := sql_sum_int (map shares rows) |}.


(* ------------------------------------------------------------------ *)
(** ** [class PortfolioService] *)

(** [`${holding.quarter} ${holding.year}`]. *)
Definition quarterKey (h : PortfolioHolding) : string :=
  (quarter h +:+ " " +:+ pretty (year h))%string.

(** [Map<string, { totalValue, totalCost }>]: entries in insertion order. *)
Record QuarterTotals := {
  qt_totalValue : Qc;
  qt_totalCost : Qc
}.

Definition QuarterMap := list (string * QuarterTotals).

Fixpoint map_get (m : QuarterMap) (k : string) : option QuarterTotals :=
  match m with
  | [] => None
  | (k', v) :: m' => if String.eqb k' k then Some v else map_get m' k
  end.

(** [Map.prototype.set]: an existing key keeps its position. *)
Fixpoint map_set (m : QuarterMap) (k : string) (v : QuarterTotals) : QuarterMap :=
  match m with
  | [] => [(k, v)]
  | (k', v') :: m' =>
      if String.eqb k' k then (k', v) :: m' else (k', v') :: map_set m' k v
  end.

(** The body of [data?.forEach(holding => ...)] in [getQuarterlyPerformance]. *)
Definition groupStep (quarterMap : QuarterMap) (holding : PortfolioHolding)
  : QuarterMap :=
  let quarterKey := quarterKey holding in
  let currentValue := (Qc_of_Z (shares holding) * current_price holding)%Qc in
  let costBasis := (Qc_of_Z (shares holding) * purchase_price holding)%Qc in
  let existing :=
    match map_get quarterMap quarterKey with
    | Some e => e
    | None => {| qt_totalValue := 0%Qc; qt_totalCost := 0%Qc |}
    end in
  map_set quarterMap quarterKey
    {| qt_totalValue := (qt_totalValue existing + currentValue)%Qc;
       qt_totalCost := (qt_totalCost existing + costBasis)%Qc |}.

(** [([quarter, data]) => ({ quarter, performance: ... })]. *)
Definition toPerformance (entry : string * QuarterTotals) : QuarterPerformance :=
  let (quarter, data) := entry in
  {| qp_quarter := quarter;
     qp_performance :=
       if gtb (qt_totalCost data) 0
       then ((qt_totalValue data - qt_totalCost data) / qt_totalCost data
             * hundred)%Qc
       else 0%Qc |}.

(** [new Set(keys)] spread into an array: first occurrences, in order. *)
Definition set_add (s : list string) (k : string) : list string :=
  if existsb (String.eqb k) s then s else s ++ [k].

Definition new_Set (keys : list string) : list string :=
  fold_left set_add keys [].

(** The comparator of [Array.prototype.sort()] without argument. *)
Definition defaultCompare (a b : string) : Z := sign_of (String.compare a b).

(** The holdings of one composite key, the sums over them, and what it
    means for a map to hold the groups of a list of holdings. *)
Definition groupOf (k : string) (hs : list PortfolioHolding) : list PortfolioHolding :=
  List.filter (fun h => String.eqb (quarterKey h) k) hs.

Definition totalsOf (hs : list PortfolioHolding) : QuarterTotals :=
  {| qt_totalValue := spec_total_value hs; qt_totalCost := spec_total_cost hs |}.

Definition grouped (hs : list PortfolioHolding) (m : QuarterMap) : Prop :=
  List.NoDup (map fst m)
  /\ (forall k, In k (map fst m) <-> In k (map quarterKey hs))
  /\ (forall k t, In (k, t) m -> t = totalsOf (groupOf k hs)).

(** [a] is not above [b] in the code-unit order. *)
Definition str_le (a b : string) : Prop := String.compare a b <> Gt.

(** Truthiness of a string and of a number. *)
Definition truthy_string (s : string) : bool := negb (String.eqb s EmptyString).

Definition truthy_number (n : Z) : bool := negb (Z.eqb n 0).

Definition orEmpty {A} (data : option (list A)) : list A :=
  match data with
  | Some l => l
  | None => []
  end.

Section PortfolioService.

(** The client created in [lib/supabase.ts]. *)
Variable supabase : Remote.

(** [String.prototype.localeCompare] of the host, as the sign it returns. *)
Variable localeCompare : string -> string -> Z.

Local Open Scope eff_scope.

Definition await (q : Query) : Eff Response := fun w => (Fulfilled (supabase q), w).

(** The optional arguments are [option]s: [None] is [undefined], and for
    the year also [NaN], which the test [if (year)] treats alike. *)
Definition portfolioQuery (userId : string) (quarter : option string)
    (year : option Z) : Query :=
  let query :=
    order col_created_at false
      (eq_ col_user_id (VString userId)
         (select SelectAll (from "portfolio_holdings"))) in
  let query :=
    match quarter with
    | Some quarter =>
        if truthy_string quarter
        then eq_ col_quarter (VString quarter) query else query
    | None => query
    end in
  let query :=
    match year with
    | Some year =>
        if truthy_number year then eq_ col_year (VInt year) query else query
    | None => query
    end in
  query.

Definition getUserPortfolio (userId : string) (quarter : option string)
    (year : option Z) : Eff (list PortfolioHolding) :=
  try_catch
    (r <- await (portfolioQuery userId quarter year) ;;
     match resp_error r with
     | Some error => throw error
     | None => ret (orEmpty (resp_data r))
     end)
    (fun error =>
       console_error "Error fetching portfolio:" error ;;; throw error).

Definition quarterlyQuery (userId : string) : Query :=
  eq_ col_user_id (VString userId)
    (select (SelectColumns [col_quarter; col_year; col_shares;
                            col_purchase_price; col_current_price])
       (from "portfolio_holdings")).

Definition quarterlyOf (data : option (list PortfolioHolding))
  : list QuarterPerformance :=
  let quarterMap := forEach (orEmpty data) groupStep [] in
  sort_by (fun a b => localeCompare (qp_quarter b) (qp_quarter a))
    (map toPerformance quarterMap).

Definition getQuarterlyPerformance (userId : string)
  : Eff (list QuarterPerformance) :=
  try_catch
    (r <- await (quarterlyQuery userId) ;;
     match resp_error r with
     | Some error => throw error
     | None => ret (quarterlyOf (resp_data r))
     end)
    (fun error =>
       console_error "Error fetching quarterly performance:" error ;;; ret []).

Definition getPortfolioSummary (userId : string) : Eff PortfolioSummary :=
  try_catch
    (holdings <- getUserPortfolio userId None None ;;
     let locals := aggregate holdings in
     quarterlyData <- getQuarterlyPerformance userId ;;
     ret (summaryOf locals quarterlyData))
    (fun error =>
       console_error "Error calculating portfolio summary:" error ;;; throw error).

Definition quartersQuery (userId : string) : Query :=
  eq_ col_user_id (VString userId)
    (select (SelectColumns [col_quarter; col_year]) (from "portfolio_holdings")).

Definition quartersOf (data : option (list PortfolioHolding)) : list string :=
  let quarters := new_Set (orEmpty (option_map (map quarterKey) data)) in
  rev (sort_by defaultCompare quarters).

Definition getAvailableQuarters (userId : string) : Eff (list string) :=
  try_catch
    (r <- await (quartersQuery userId) ;;
     match resp_error r with
     | Some error => throw error
     | None => ret (quartersOf (resp_data r))
     end)
    (fun error => console_error "Error fetching quarters:" error ;;; ret []).

(** [this.cache.clear()]. *)
Definition clearCache : Eff unit :=
  fun w => (Fulfilled tt, {| cache := ∅; console := console w |}).

End PortfolioService.

(* ------------------------------------------------------------------ *)
(** ** [PortfolioDashboard]: loading the page *)

(** [String.prototype.split(' ')]. *)
Fixpoint split_space (s : string) : list string :=
  match s with
  | EmptyString => [EmptyString]
  | String c s' =>
      if Ascii.eqb c " "
      then EmptyString :: split_space s'
      else match split_space s' with
           | w :: ws => String c w :: ws
           | [] => [String c EmptyString]
           end
  end.

(** [parseInt(s)] without radix: leading white space, a sign, a [0x]
    prefix, then the longest run of digits; [None] is [NaN]. *)
Definition is_space (c : ascii) : bool :=
  let n := N_of_ascii c in
  ((9 <=? n) && (n <=? 13) || (n =? 32))%N.

Fixpoint skip_spaces (s : string) : string :=
  match s with
  | String c s' => if is_space c then skip_spaces s' else s
  | EmptyString => s
  end.

Definition digit_value (c : ascii) : option Z :=
  let n := Z.of_N (N_of_ascii c) in
  if (48 <=? n) && (n <=? 57) then Some (n - 48)
  else if (97 <=? n) && (n <=? 122) then Some (n - 87)
  else if (65 <=? n) && (n <=? 90) then Some (n - 55)
  else None.

Fixpoint parse_digits (radix : Z) (s : string) (acc : option Z) : option Z :=
  match s with
  | EmptyString => acc
  | String c s' =>
      match digit_value c with
      | Some d =>
          if d <? radix
          then parse_digits radix s' (Some (default 0 acc * radix + d))
          else acc
      | None => acc
      end
  end.

Definition parseInt (input : string) : option Z :=
  let s := skip_spaces input in
  let (sign, s) :=
    match s with
    | String "-" s' => (-1, s')
    | String "+" s' => (1, s')
    | _ => (1, s)
    end in
  let (radix, s) :=
    match s with
    | String "0" (String "x" s') => (16, s')
    | String "0" (String "X" s') => (16, s')
    | _ => (10, s)
    end in
  option_map (Z.mul sign) (parse_digits radix s None).

(** The [useState] cells of the component. *)
Record DashboardState := {
  holdings : list PortfolioHolding;
  summary : option PortfolioSummary;
  loading : bool;
  error : option string;
  selectedQuarter : string;
  availableQuarters : list string
}.

Definition setHoldings v (st : DashboardState) : DashboardState :=
  {| holdings := v; summary := summary st; loading := loading st;
     error := error st; selectedQuarter := selectedQuarter st;
     availableQuarters := availableQuarters st |}.
Definition setSummary v (st : DashboardState) : DashboardState :=
  {| holdings := holdings st; summary := v; loading := loading st;
     error := error st; selectedQuarter := selectedQuarter st;
     availableQuarters := availableQuarters st |}.
Definition setLoading v (st : DashboardState) : DashboardState :=
  {| holdings := holdings st; summary := summary st; loading := v;
     error := error st; selectedQuarter := selectedQuarter st;
     availableQuarters := availableQuarters st |}.
Definition setError v (st : DashboardState) : DashboardState :=
  {| holdings := holdings st; summary := summary st; loading := loading st;
     error := v; selectedQuarter := selectedQuarter st;
     availableQuarters := availableQuarters st |}.
Definition setSelectedQuarter v (st : DashboardState) : DashboardState :=
  {| holdings := holdings st; summary := summary st; loading := loading st;
     error := error st; selectedQuarter := v;
     availableQuarters := availableQuarters st |}.
Definition setAvailableQuarters v (st : DashboardState) : DashboardState :=
  {| holdings := holdings st; summary := summary st; loading := loading st;
     error := error st; selectedQuarter := selectedQuarter st;
     availableQuarters := v |}.

(** [a || b] on strings. *)
Definition orElse (a b : string) : string := if truthy_string a then a else b.

(** The arguments [quarter, year ? parseInt(year) : undefined] computed from
    [const [quarter, year] = label.split(' ')]. *)
Definition quarterArgs (label : string) : option string * option Z :=
  let parts := split_space label in
  let quarter := nth_error parts 0 in
  let year := nth_error parts 1 in
  (quarter,
   match year with
   | Some year => if truthy_string year then parseInt year else None
   | None => None
   end).

Section PortfolioDashboard.

Variable supabase : Remote.
Variable localeCompare : string -> string -> Z.

(** The three awaited calls of the [try] block; the dashboard state
    written so far is kept when one of them rejects. [render] is the state
    the closure was created in. *)
Definition loadPortfolioData_try (userId : string) (render st : DashboardState)
    (w : World) : DashboardState * World * option PostgrestError :=
  match getAvailableQuarters supabase userId w with
  | (Rejected e, w) => (st, w, Some e)
  | (Fulfilled quarters, w) =>
      let st := setAvailableQuarters quarters st in
      let defaultQuarter := orElse (hd EmptyString quarters) EmptyString in
      let st :=
        if negb (truthy_string (selectedQuarter render))
           && truthy_string defaultQuarter
        then setSelectedQuarter defaultQuarter st else st in
      let (quarter, year) :=
        quarterArgs (orElse (selectedQuarter render) defaultQuarter) in
      match getUserPortfolio supabase userId quarter year w with
      | (Rejected e, w) => (st, w, Some e)
      | (Fulfilled portfolioData, w) =>
          let st := setHoldings portfolioData st in
          match getPortfolioSummary supabase localeCompare userId w with
          | (Rejected e, w) => (st, w, Some e)
          | (Fulfilled summaryData, w) =>
              (setSummary (Some summaryData) st, w, None)
          end
      end
  end.

Definition loadPortfolioData (user : option string) (render : DashboardState)
    (w : World) : DashboardState * World :=
  match user with
  | None => (render, w)
  | Some userId =>
      let st := setError None (setLoading true render) in
      match loadPortfolioData_try userId render st w with
      | (st, w, None) => (setLoading false st, w)
      | (st, w, Some e) =>
          let w := snd (console_error "Error loading portfolio data:" e w) in
          let st :=
            setError (Some "Failed to load portfolio data. Please try again."%string)
              st in
          (setLoading false st, w)
      end
  end.

(** [handleQuarterChange]: the holdings are fetched again for the new
    selection; the summary is not. *)
Definition handleQuarterChange (user : option string) (quarter : string)
    (st : DashboardState) (w : World) : DashboardState * World :=
  let st := setSelectedQuarter quarter st in
  match user with
  | None => (st, w)
  | Some userId =>
      let (q, y) := quarterArgs quarter in
      match getUserPortfolio supabase userId q y w with
      | (Fulfilled portfolioData, w) => (setHoldings portfolioData st, w)
      | (Rejected e, w) =>
          let w := snd (console_error "Error loading quarter data:" e w) in
          (setError (Some "Failed to load data for selected quarter"%string) st, w)
      end
  end.

End PortfolioDashboard.

(* ------------------------------------------------------------------ *)
(** ** Sample data *)

Definition mkHolding (i u sym : string) (n : Z) (purchase current : Qc)
    (q : string) (y t : Z) : PortfolioHolding :=
  {| id := i; user_id := u; stock_symbol := sym; company_name := sym;
     shares := n; purchase_price := purchase; current_price := current;
     quarter := q; year := y; created_at := t; updated_at := t |}.

(** Two holdings of one user (10 shares bought at 90 now at 100, 5 shares
    bought at 40 now at 50) and one of another user. *)
Definition sample_table : list PortfolioHolding :=
  [ mkHolding "h1" "u1" "TCS" 10 (Qc_of_Z 90) (Qc_of_Z 100) "Q1" 2024 1000;
    mkHolding "h2" "u2" "INFY" 7 (Qc_of_Z 20) (Qc_of_Z 30) "Q1" 2024 2000;
    mkHolding "h3" "u1" "TITAN" 5 (Qc_of_Z 40) (Qc_of_Z 50) "Q2" 2024 3000 ].

Definition w0 : World := {| cache := ∅; console := [] |}.

Definition outage : PostgrestError :=
  {| message := "connection refused"; code := "08006" |}.

(** A freshly mounted dashboard with a given selection. *)
Definition dashboard (selected : string) : DashboardState :=
  {| holdings := []; summary := None; loading := true; error := None;
     selectedQuarter := selected; availableQuarters := [] |}.

(** The label whose holdings [loadPortfolioData] asks for. *)
Definition shownQuarter (supabase : Remote) (userId : string)
    (render : DashboardState) (w : World) : string :=
  orElse (selectedQuarter render)
    (orElse (hd EmptyString (valueOr [] (fst (getAvailableQuarters supabase userId w))))
       EmptyString).

(* ------------------------------------------------------------------ *)
(** ** Rows and cards of the dashboard *)






(** ** Labels *)

(** Strings without a space, and strings of decimal digits. *)
Fixpoint no_space (s : string) : bool :=
  match s with
  | EmptyString => true
  | String c s' => negb (Ascii.eqb c " ") && no_space s'
  end.

Definition is_digit (c : ascii) : bool :=
  let n := N_of_ascii c in ((48 <=? n) && (n <=? 57))%N.

Fixpoint all_digits (s : string) : bool :=
  match s with
  | EmptyString => true
  | String c s' => is_digit c && all_digits s'
  end.

(** Descending code-unit order, strictly. *)
Definition str_desc (a b : string) : Prop := String.compare b a = Lt.

(** ** Row level security *)

(** [CREATE POLICY "Users can read own portfolio" ON portfolio_holdings FOR
    SELECT TO authenticated USING (auth.uid() = user_id)], on a table with
    row level security enabled: [auth_uid] is [None] for a request that is
    not authenticated, to which no policy applies. *)
Definition can_read (auth_uid : option string) (h : PortfolioHolding) : bool :=
  match auth_uid with
  | Some uid => String.eqb uid (user_id h)
  | None => false
  end.

(** The remote as a given caller sees it. *)
Definition postgrest_as (auth_uid : option string) (table : list PortfolioHolding)
  : Remote :=
  postgrest (List.filter (can_read auth_uid) table).

(** ** Sums over the quarter map *)



(* ------------------------------------------------------------------ *)
(** ** [create_sample_portfolio_data]: seeding a user's portfolio *)

Module SampleData.

(** A row of the [VALUES] list [t(symbol, name, shares, purchase, current)]. *)
Record Stock := {
  symbol : string;
  name : string;
  base_shares : Z;
  purchase : Qc;
  current : Qc
}.

(** A literal with two decimals, given in hundredths. *)
Definition dec (hundredths : Z) : Qc := Q2Qc (hundredths # 100).

Definition stock (s n : string) (k : Z) (p c : Z) : Stock :=
  {| symbol := s; name := n; base_shares := k; purchase := dec p; current := dec c |}.

Definition stocks_values : list Stock :=
  [ stock "TCS" "Tata Consultancy Services Ltd." 50 320000 354230;
    stock "RELIANCE" "Reliance Industries Ltd." 75 218025 245675;
    stock "HDFCBANK" "HDFC Bank Ltd." 100 152040 163485;
    stock "INFY" "Infosys Ltd." 80 129875 145620;
    stock "ICICIBANK" "ICICI Bank Ltd." 120 97860 108945;
    stock "BHARTIARTL" "Bharti Airtel Ltd." 90 108930 123450;
    stock "TITAN" "Titan Company Ltd." 60 287640 323450;
    stock "NESTLEIND" "Nestle India Ltd." 25 2123460 2345675;
    stock "MARUTI" "Maruti Suzuki India Ltd." 40 923480 1045625;
    stock "HCLTECH" "HCL Technologies Ltd." 70 109850 123475;
    stock "HINDUNILVR" "Hindustan Unilever Ltd." 45 215630 238760;
    stock "ASIANPAINT" "Asian Paints Ltd." 35 287690 315680 ].

(** [quarters text[] := ARRAY['Q1', 'Q2', 'Q3', 'Q4']] and
    [years integer[] := ARRAY[2023, 2024]]. *)
Definition quarters : list string := ["Q1"; "Q2"; "Q3"; "Q4"]%string.
Definition years : list Z := [2023; 2024].

(** What the function takes from the database server: the successive values
    of [random()], the cast [::integer], the assignment to a
    [decimal(10,2)] column, [gen_random_uuid()], [now()], and the product of a
    number with [interval '365 days'] (in microseconds). *)
Record Host := {
  random : nat -> Qc;
  to_integer : Qc -> Z;
  to_decimal : Qc -> Qc;
  gen_random_uuid : nat -> string;
  now : Z;
  times_365_days : Qc -> Z
}.

(** What is used of them: [random()] lies in [0, 1); rounding to an integer
    keeps a value between two integers between them; rounding to two
    decimals keeps a value that is at least an integer at least that
    integer. *)
Definition sound_host (host : Host) : Prop :=
  (forall n, (0 <= random host n)%Qc /\ (random host n < 1)%Qc)
  /\ (forall x lo hi, (Qc_of_Z lo <= x)%Qc -> (x <= Qc_of_Z hi)%Qc ->
                      lo <= to_integer host x <= hi)
  /\ (forall x n, (Qc_of_Z n <= x)%Qc -> (Qc_of_Z n <= to_decimal host x)%Qc).

(** The tables [users] (its ids) and [portfolio_holdings], and how many
    times [random()] and [gen_random_uuid()] have been called. *)
Record Db := {
  users : list string;
  portfolio_holdings : list PortfolioHolding;
  random_calls : nat;
  uuid_calls : nat
}.

(** The [CHECK] constraints, as the server evaluates them. *)
Definition holding_checks_b (h : PortfolioHolding) : bool :=
  (0 <? shares h) && gtb (purchase_price h) 0 && gtb (current_price h) 0
  && (2020 <=? year h).

(** [INSERT INTO portfolio_holdings]: the row is appended when its user
    exists ([REFERENCES users(id)]) and the constraints hold, and the
    statement fails otherwise.  Uniqueness of the generated ids is not
    checked. *)
Definition insert (row : PortfolioHolding) (db : Db) : option Db :=
  if existsb (String.eqb (user_id row)) (users db) && holding_checks_b row
  then Some {| users := users db;
               portfolio_holdings := portfolio_holdings db ++ [row];
               random_calls := random_calls db;
               uuid_calls := uuid_calls db |}
  else None.

(** The row of the [VALUES] clause of the [INSERT], built when [random()]
    has been called [n] times and [gen_random_uuid()] [i] times. *)
Definition sample_row (host : Host) (target_user_id : string) (n i : nat)
    (stocks : Stock) (year : Z) (quarter : string) : PortfolioHolding :=
  {| id := gen_random_uuid host i;
     user_id := target_user_id;
     stock_symbol := symbol stocks;
     company_name := name stocks;
     shares := base_shares stocks
               + to_integer host (random host n * Qc_of_Z 20 - Qc_of_Z 10)%Qc;
     purchase_price :=
       to_decimal host
         (purchase stocks + (random host (n + 1) * Qc_of_Z 100 - Qc_of_Z 50))%Qc;
     current_price :=
       to_decimal host
         (current stocks + (random host (n + 2) * Qc_of_Z 200 - Qc_of_Z 100))%Qc;
     quarter := quarter;
     year := year;
     created_at := now host - times_365_days host (random host (n + 3));
     updated_at := now host |}.

Definition insert_sample (host : Host) (target_user_id : string)
    (stocks : Stock) (year : Z) (quarter : string) (db : Db) : option Db :=
  insert
    (sample_row host target_user_id (random_calls db) (uuid_calls db)
       stocks year quarter)
    {| users := users db; portfolio_holdings := portfolio_holdings db;
       random_calls := random_calls db + 4; uuid_calls := uuid_calls db + 1 |}.

(** [FOR x IN ... LOOP body END LOOP], where a failing statement aborts the
    function. *)
Fixpoint for_loop {A S : Type} (xs : list A) (body : A -> S -> option S) (s : S)
  : option S :=
  match xs with
  | [] => Some s
  | x :: xs' =>
      match body x s with
      | Some s' => for_loop xs' body s'
      | None => None
      end
  end.

Definition create_sample_portfolio_data (host : Host) (target_user_id : string)
    (db : Db) : option Db :=
  for_loop stocks_values
    (fun stocks =>
       for_loop years
         (fun year =>
            for_loop quarters
              (fun quarter => insert_sample host target_user_id stocks year quarter)))
    db.

(** The inserts of a run, in order: every stock, for it every year, for it
    every quarter. *)
Definition plan : list (Stock * Z * string) :=
  flat_map (fun s => flat_map (fun y => map (fun q => (s, y, q)) quarters) years)
    stocks_values.

(** The rows a run inserts from a given state of the counters. *)
Fixpoint rows_from (host : Host) (target_user_id : string) (n i : nat)
    (todo : list (Stock * Z * string)) : list PortfolioHolding :=
  match todo with
  | [] => []
  | (s, y, q) :: todo' =>
      sample_row host target_user_id n i s y q
      :: rows_from host target_user_id (n + 4) (i + 1) todo'
  end.

(** Bounds that every row of [stocks_values] meets. *)
Definition stock_ok (s : Stock) : Prop :=
  11 <= base_shares s /\ (Qc_of_Z 51 <= purchase s)%Qc
  /\ (Qc_of_Z 101 <= current s)%Qc.

(** A host for examples: every draw is 1/2, integers are rounded to the
    nearest, decimals are stored as they are. *)
Definition steady_host : Host :=
  {| random := fun _ => Q2Qc (1 # 2);
     to_integer := fun x =>
       (2 * Qnum (this x) + Z.pos (Qden (this x))) / (2 * Z.pos (Qden (this x)));
     to_decimal := fun x => x;
     gen_random_uuid := fun i => pretty (Z.of_nat i);
     now := 1700000000000000;
     times_365_days := fun x =>
       Qnum (this x) * 31536000000000 / Z.pos (Qden (this x)) |}.

End SampleData.

(* ------------------------------------------------------------------ *)
(** * Properties *)

(** ** Numbers *)

Lemma gtb_true_iff (a b : Qc) : gtb a b = true <-> (b < a)%Qc.
Proof.
  unfold gtb. split.
  - destruct (a ?= b)%Qc eqn:E; try discriminate. intros _.
    now apply Qcgt_alt in E.
  - intros H. apply Qcgt_alt in H. now rewrite H.
Qed.

Lemma gtb_false_iff (a b : Qc) : gtb a b = false <-> (a <= b)%Qc.
Proof.
  rewrite Qcle_ngt. split.
  - intros H Hlt. apply gtb_true_iff in Hlt. congruence.
  - intros H. destruct (gtb a b) eqn:E; [|reflexivity].
    apply gtb_true_iff in E. contradiction.
Qed.

Lemma Qc_of_Z_pos (n : Z) : 0 < n -> (0 < Qc_of_Z n)%Qc.
Proof.
  intros H. unfold Qclt, Qlt. simpl. lia.
Qed.

Lemma Qcmult_pos_pos (x y : Qc) : (0 < x)%Qc -> (0 < y)%Qc -> (0 < x * y)%Qc.
Proof.
  intros Hx Hy. rewrite <- (Qcmult_0_l y). now apply Qcmult_lt_compat_r.
Qed.

Lemma value_eqb_eq (a b : JsValue) : value_eqb a b = true <-> a = b.
Proof.
  destruct a, b; simpl; split; intros H; try discriminate; try congruence.
  - apply String.eqb_eq in H. congruence.
  - apply String.eqb_eq. congruence.
  - apply Z.eqb_eq in H. congruence.
  - apply Z.eqb_eq. congruence.
  - apply Qc_eq_bool_correct in H. congruence.
  - injection H as ->. unfold Qc_eq_bool.
    destruct (Qcanon.Qc_eq_dec q0 q0); congruence.
Qed.

(** ** The aggregation loop *)

Lemma forEach_accumulate (hs : list PortfolioHolding) (acc : Accumulators) :
  forEach hs accumulate acc =
  {| acc_totalValue := (acc_totalValue acc + spec_total_value hs)%Qc;
     acc_totalCost := (acc_totalCost acc + spec_total_cost hs)%Qc;
     acc_totalShares := acc_totalShares acc + spec_total_shares hs |}.
Proof.
  revert acc. unfold forEach.
  induction hs as [|h hs IH]; intros [v c s].
  - unfold spec_total_value, spec_total_cost, spec_total_shares. simpl.
    f_equal; solve [ring | lia].
  - simpl fold_left. rewrite IH.
    unfold spec_total_value, spec_total_cost, spec_total_shares. simpl.
    f_equal; solve [ring | lia].
Qed.

Lemma aggregate_totals (hs : list PortfolioHolding) :
  l_totalValue (aggregate hs) = spec_total_value hs
  /\ l_totalCost (aggregate hs) = spec_total_cost hs
  /\ l_totalShares (aggregate hs) = spec_total_shares hs
  /\ l_totalGainLoss (aggregate hs) = (spec_total_value hs - spec_total_cost hs)%Qc
  /\ l_totalGainLossPercent (aggregate hs) =
     percentReturn (spec_total_value hs) (spec_total_cost hs).
Proof.
  unfold aggregate, percentReturn. rewrite forEach_accumulate. simpl.
  rewrite !Qcplus_0_l. repeat split.
Qed.

Lemma spec_total_cost_nonneg (hs : list PortfolioHolding) :
  Forall holding_checks hs -> (0 <= spec_total_cost hs)%Qc.
Proof.
  induction 1 as [|h hs (Hs & Hp & _) _ IH]; unfold spec_total_cost; simpl.
  - apply Qcle_refl.
  - apply Qcplus_nonneg_nonneg; [|exact IH].
    apply Qclt_le_weak, Qcmult_pos_pos; auto using Qc_of_Z_pos.
Qed.

Lemma spec_total_cost_pos (h : PortfolioHolding) (hs : list PortfolioHolding) :
  Forall holding_checks (h :: hs) -> (0 < spec_total_cost (h :: hs))%Qc.
Proof.
  intros H. inversion H as [|? ? (Hs & Hp & _) Hrest]; subst.
  unfold spec_total_cost; simpl. apply Qcplus_pos_nonneg.
  - apply Qcmult_pos_pos; auto using Qc_of_Z_pos.
  - now apply spec_total_cost_nonneg.
Qed.

(** Under the table's constraints the total cost vanishes only for the
    empty list. *)
Lemma spec_total_cost_zero (hs : list PortfolioHolding) :
  Forall holding_checks hs -> spec_total_cost hs = 0%Qc -> hs = [].
Proof.
  destruct hs as [|h hs]; [reflexivity|]. intros H E.
  apply spec_total_cost_pos in H. rewrite E in H.
  now apply Qclt_not_eq in H.
Qed.

(** ** Running the service *)

Section Running.

Variable supabase : Remote.
Variable localeCompare : string -> string -> Z.

Lemma getUserPortfolio_resolves userId quarter year w :
  resp_error (supabase (portfolioQuery userId quarter year)) = None ->
  getUserPortfolio supabase userId quarter year w =
  (Fulfilled (orEmpty (resp_data (supabase (portfolioQuery userId quarter year)))), w).
Proof.
  intros H. unfold getUserPortfolio, try_catch, bind, await. now rewrite H.
Qed.

Lemma getUserPortfolio_rejects userId quarter year w e :
  resp_error (supabase (portfolioQuery userId quarter year)) = Some e ->
  getUserPortfolio supabase userId quarter year w =
  (Rejected e, logged w "Error fetching portfolio:" e).
Proof.
  intros H. unfold getUserPortfolio, try_catch, bind, await. now rewrite H.
Qed.

Lemma getQuarterlyPerformance_resolves userId w :
  resp_error (supabase (quarterlyQuery userId)) = None ->
  getQuarterlyPerformance supabase localeCompare userId w =
  (Fulfilled (quarterlyOf localeCompare (resp_data (supabase (quarterlyQuery userId)))), w).
Proof.
  intros H. unfold getQuarterlyPerformance, try_catch, bind, await. now rewrite H.
Qed.

Lemma getQuarterlyPerformance_degrades userId w e :
  resp_error (supabase (quarterlyQuery userId)) = Some e ->
  getQuarterlyPerformance supabase localeCompare userId w =
  (Fulfilled [], logged w "Error fetching quarterly performance:" e).
Proof.
  intros H. unfold getQuarterlyPerformance, try_catch, bind, await. now rewrite H.
Qed.

Lemma getQuarterlyPerformance_total userId w :
  exists l w', getQuarterlyPerformance supabase localeCompare userId w
               = (Fulfilled l, w') /\ cache w' = cache w.
Proof.
  destruct (resp_error (supabase (quarterlyQuery userId))) as [e|] eqn:E.
  - rewrite (getQuarterlyPerformance_degrades _ _ e E). eauto.
  - rewrite (getQuarterlyPerformance_resolves _ _ E). eauto.
Qed.

Lemma getAvailableQuarters_resolves userId w :
  resp_error (supabase (quartersQuery userId)) = None ->
  getAvailableQuarters supabase userId w =
  (Fulfilled (quartersOf (resp_data (supabase (quartersQuery userId)))), w).
Proof.
  intros H. unfold getAvailableQuarters, try_catch, bind, await. now rewrite H.
Qed.

Lemma getAvailableQuarters_degrades userId w e :
  resp_error (supabase (quartersQuery userId)) = Some e ->
  getAvailableQuarters supabase userId w =
  (Fulfilled [], logged w "Error fetching quarters:" e).
Proof.
  intros H. unfold getAvailableQuarters, try_catch, bind, await. now rewrite H.
Qed.

(** When the holdings fetch resolves, the summary is the aggregate of the
    fetched list together with whatever the quarterly path returned. *)
Lemma getPortfolioSummary_resolves userId w :
  resp_error (supabase (portfolioQuery userId None None)) = None ->
  exists w',
    getPortfolioSummary supabase localeCompare userId w =
    (Fulfilled
       (summaryOf
          (aggregate (orEmpty (resp_data (supabase (portfolioQuery userId None None)))))
          (valueOr [] (fst (getQuarterlyPerformance supabase localeCompare userId w)))),
     w')
    /\ cache w' = cache w.
Proof.
  intros H. unfold getPortfolioSummary, try_catch. unfold bind at 1.
  rewrite (getUserPortfolio_resolves _ _ _ _ H). unfold bind.
  destruct (getQuarterlyPerformance_total userId w) as (l & w' & -> & Hc).
  simpl. eauto.
Qed.

Lemma getPortfolioSummary_rejects userId w e :
  resp_error (supabase (portfolioQuery userId None None)) = Some e ->
  getPortfolioSummary supabase localeCompare userId w =
  (Rejected e,
   logged (logged w "Error fetching portfolio:" e)
     "Error calculating portfolio summary:" e).
Proof.
  intros H. unfold getPortfolioSummary, try_catch. unfold bind at 1.
  now rewrite (getUserPortfolio_rejects _ _ _ _ _ H).
Qed.

End Running.

(** ** Sorting *)

Section Sorting.

Context {A : Type}.
Variable cmp : A -> A -> Z.

Lemma insert_by_perm (x : A) (l : list A) :
  Permutation (insert_by cmp x l) (x :: l).
Proof.
  induction l as [|y l IH]; simpl; [reflexivity|].
  destruct (0 <? cmp x y); [|reflexivity].
  rewrite IH. apply perm_swap.
Qed.

Lemma sort_by_perm (l : list A) : Permutation (sort_by cmp l) l.
Proof.
  induction l as [|x l IH]; simpl; [reflexivity|].
  unfold sort_by in *. simpl. rewrite insert_by_perm. now constructor.
Qed.

Lemma sort_by_In (x : A) (l : list A) : In x (sort_by cmp l) <-> In x l.
Proof.
  split; apply Permutation_in; [|symmetry]; apply sort_by_perm.
Qed.

Lemma sort_by_nil_inv (l : list A) : sort_by cmp l = [] -> l = [].
Proof.
  intros H. apply Permutation_nil. rewrite <- H. apply sort_by_perm.
Qed.

Hypothesis cmp_total : forall x y, 0 < cmp x y -> cmp y x <= 0.
Hypothesis before_trans :
  forall x y z, before cmp x y -> before cmp y z -> before cmp x z.

Lemma insert_by_sorted (x : A) (l : list A) :
  StronglySorted (before cmp) l -> StronglySorted (before cmp) (insert_by cmp x l).
Proof.
  induction 1 as [|y l Hs IH Hall]; simpl.
  - repeat constructor.
  - destruct (0 <? cmp x y) eqn:E.
    + apply Z.ltb_lt in E. constructor; [exact IH|].
      rewrite insert_by_perm.
      constructor; [now apply cmp_total | exact Hall].
    + apply Z.ltb_ge in E. constructor; [now constructor|].
      constructor; [exact E|].
      eapply Forall_impl; [exact Hall|]. intros z Hz.
      now apply before_trans with y.
Qed.

Lemma sort_by_sorted (l : list A) : StronglySorted (before cmp) (sort_by cmp l).
Proof.
  induction l as [|x l IH]; [constructor|].
  now apply insert_by_sorted.
Qed.

End Sorting.

(** Two comparators with the same sign on the elements of a list sort it
    alike. *)
Lemma insert_by_ext {A} (cmp cmp' : A -> A -> Z) (x : A) (l : list A) :
  (forall y, In y l -> (0 <? cmp x y) = (0 <? cmp' x y)) ->
  insert_by cmp x l = insert_by cmp' x l.
Proof.
  induction l as [|y l IH]; intros H; simpl; [reflexivity|].
  rewrite <- (H y) by now left.
  rewrite IH; [reflexivity|]. intros z Hz. apply H. now right.
Qed.

Lemma sort_by_ext {A} (cmp cmp' : A -> A -> Z) (l : list A) :
  (forall x y, In x l -> In y l -> (0 <? cmp x y) = (0 <? cmp' x y)) ->
  sort_by cmp l = sort_by cmp' l.
Proof.
  induction l as [|x l IH]; intros H; [reflexivity|].
  change (insert_by cmp x (sort_by cmp l) = insert_by cmp' x (sort_by cmp' l)).
  rewrite IH.
  - apply insert_by_ext. intros y Hy. apply H; [now left|right].
    now apply sort_by_In in Hy.
  - intros a b Ha Hb. apply H; now right.
Qed.

(** ** The code-unit order on strings *)

Lemma compare_refl (s : string) : String.compare s s = Eq.
Proof. now apply String_as_OT.cmp_eq. Qed.

Lemma compare_lt_trans (a b c : string) :
  String.compare a b = Lt -> String.compare b c = Lt -> String.compare a c = Lt.
Proof.
  intros H1 H2. apply String_as_OT.cmp_lt in H1, H2. apply String_as_OT.cmp_lt.
  now apply String_as_OT.lt_trans with b.
Qed.

Lemma compare_gt_lt (a b : string) :
  String.compare a b = Gt <-> String.compare b a = Lt.
Proof.
  rewrite (String.compare_antisym a b).
  destruct (String.compare b a); simpl; split; congruence.
Qed.

Lemma str_le_trans (a b c : string) : str_le a b -> str_le b c -> str_le a c.
Proof.
  unfold str_le. intros H1 H2.
  destruct (String.compare a b) eqn:E1; [| |congruence].
  - apply String.compare_eq_iff in E1. now subst.
  - destruct (String.compare b c) eqn:E2; [| |congruence].
    + apply String.compare_eq_iff in E2. subst. now rewrite E1.
    + now rewrite (compare_lt_trans _ _ _ E1 E2).
Qed.

Lemma defaultCompare_le (a b : string) : defaultCompare a b <= 0 <-> str_le a b.
Proof.
  unfold defaultCompare, str_le. destruct (String.compare a b); simpl;
    split; intros; try lia; congruence.
Qed.

Lemma defaultCompare_total (a b : string) :
  0 < defaultCompare a b -> defaultCompare b a <= 0.
Proof.
  unfold defaultCompare. rewrite (String.compare_antisym b a).
  destruct (String.compare a b); simpl; lia.
Qed.

(** ** The remote that answers from a table *)

Lemma order_rows_perm (o : option (Column * bool)) (rows : list PortfolioHolding) :
  Permutation (order_rows o rows) rows.
Proof.
  destruct o as [[c [|]]|]; simpl; try apply sort_by_perm. reflexivity.
Qed.

Lemma run_query_perm (table : list PortfolioHolding) (q : Query) :
  Permutation (run_query table q) (List.filter (satisfies (q_filters q)) table).
Proof. apply order_rows_perm. Qed.

Lemma run_query_In (table : list PortfolioHolding) (q : Query) (h : PortfolioHolding) :
  In h (run_query table q) <-> In h table /\ satisfies (q_filters q) h = true.
Proof.
  rewrite <- filter_In. split; apply Permutation_in;
    [|symmetry]; apply run_query_perm.
Qed.

Lemma satisfies_user (userId : string) (h : PortfolioHolding) :
  satisfies [(col_user_id, VString userId)] h = String.eqb (user_id h) userId.
Proof. unfold satisfies, matches. simpl. apply andb_true_r. Qed.

Lemma filter_ext_bool {A} (f g : A -> bool) (l : list A) :
  (forall x, f x = g x) -> List.filter f l = List.filter g l.
Proof.
  intros H. induction l as [|x l IH]; simpl; [reflexivity|].
  now rewrite H, IH.
Qed.

(** The rows of [userId], in table order. *)
Lemma run_quarterlyQuery (table : list PortfolioHolding) (userId : string) :
  run_query table (quarterlyQuery userId) =
  List.filter (fun h => String.eqb (user_id h) userId) table.
Proof.
  unfold run_query. simpl. apply filter_ext_bool. apply satisfies_user.
Qed.

Lemma run_quartersQuery (table : list PortfolioHolding) (userId : string) :
  run_query table (quartersQuery userId) =
  List.filter (fun h => String.eqb (user_id h) userId) table.
Proof.
  unfold run_query. simpl. apply filter_ext_bool. apply satisfies_user.
Qed.

(** The same rows, most recently created first. *)
Lemma run_portfolioQuery_all (table : list PortfolioHolding) (userId : string) :
  Permutation (run_query table (portfolioQuery userId None None))
    (List.filter (fun h => String.eqb (user_id h) userId) table).
Proof.
  rewrite run_query_perm. simpl.
  now rewrite (filter_ext_bool _ _ table (satisfies_user userId)).
Qed.

Lemma getPortfolioSummary_postgrest table localeCompare userId w :
  getPortfolioSummary (postgrest table) localeCompare userId w =
  (Fulfilled
     (summaryOf (aggregate (run_query table (portfolioQuery userId None None)))
        (quarterlyOf localeCompare (Some (run_query table (quarterlyQuery userId))))),
   w).
Proof. reflexivity. Qed.

(** ** Claims about the summary *)



(** On those two holdings the totals are 1250, 1100, 150, 150/11 percent
    (about 13.64) and 15 shares. *)
Example aggregate_example :
  let l := aggregate (run_query sample_table (portfolioQuery "u1" None None)) in
  l_totalValue l = Qc_of_Z 1250 /\ l_totalCost l = Qc_of_Z 1100
  /\ l_totalGainLoss l = Qc_of_Z 150
  /\ l_totalGainLossPercent l = Q2Qc (150 # 11)
  /\ l_totalShares l = 15.
Proof. repeat split; try (apply Qc_is_canon; vm_compute); reflexivity. Qed.

(** For a user without holdings the whole summary is zero, and nothing is
    written to the world. *)
Lemma no_holdings_summary
    (table : list PortfolioHolding) (localeCompare : string -> string -> Z)
    (userId : string) (w : World) :
  run_query table (portfolioQuery userId None None) = [] ->
  getPortfolioSummary (postgrest table) localeCompare userId w =
  (Fulfilled {| totalValue := 0%Qc; totalGainLoss := 0%Qc;
                totalGainLossPercent := 0%Qc; totalShares := 0;
                quarterlyPerformance := [] |}, w).
Proof.
  intros Hnil.
  rewrite getPortfolioSummary_postgrest.
  assert (Hnil' : run_query table (quarterlyQuery userId) = []).
  { rewrite run_quarterlyQuery. apply Permutation_nil.
    rewrite <- Hnil. apply run_portfolioQuery_all. }
  now rewrite Hnil, Hnil'.
Qed.

(** C4. When the holdings fetch resolves to a list whose total cost is zero,
    [getPortfolioSummary] resolves (it does not fail) with a gain/loss
    percent of exactly 0, the division not being evaluated; when the list
    consists of holdings (rows that satisfy the table's constraints), which
    then is the empty list, total value, gain/loss and total shares are 0 as
    well. *)
Theorem zero_cost_summary
    (supabase : Remote) (localeCompare : string -> string -> Z)
    (userId : string) (hs : list PortfolioHolding) (w : World) :
  resp_error (supabase (portfolioQuery userId None None)) = None ->
  resp_data (supabase (portfolioQuery userId None None)) = Some hs ->
  spec_total_cost hs = 0%Qc ->
  exists s w',
    getPortfolioSummary supabase localeCompare userId w = (Fulfilled s, w')
    /\ totalGainLossPercent s = 0%Qc
    /\ l_totalCost (aggregate hs) = 0%Qc
    /\ (Forall holding_checks hs ->
        hs = [] /\ totalValue s = 0%Qc /\ totalGainLoss s = 0%Qc
        /\ totalShares s = 0).
Proof.
  intros Herr Hdata Hzero.
  destruct (getPortfolioSummary_resolves supabase localeCompare userId w Herr)
    as (w' & Hrun & _).
  rewrite Hdata in Hrun. cbn [orEmpty] in Hrun.
  destruct (aggregate_totals hs) as (Hv & Hc & Hs & Hg & Hp).
  eexists _, w'. split; [exact Hrun|]. unfold summaryOf.
  cbn [totalValue totalGainLoss totalGainLossPercent totalShares].
  split; [|split].
  - rewrite Hp, Hzero. reflexivity.
  - now rewrite Hc.
  - intros Hchecks. pose proof (spec_total_cost_zero hs Hchecks Hzero) as ->.
    repeat split.
Qed.

Lemma zero_cost_summary_witness :
  (resp_error (postgrest sample_table (portfolioQuery "u9" None None)) = None
   /\ resp_data (postgrest sample_table (portfolioQuery "u9" None None)) = Some []
   /\ spec_total_cost [] = 0%Qc)
  /\ exists s w',
    getPortfolioSummary (postgrest sample_table) defaultCompare "u9" w0
    = (Fulfilled s, w')
    /\ totalGainLossPercent s = 0%Qc
    /\ l_totalCost (aggregate []) = 0%Qc
    /\ (Forall holding_checks [] ->
        @nil PortfolioHolding = [] /\ totalValue s = 0%Qc /\ totalGainLoss s = 0%Qc
        /\ totalShares s = 0).
Proof.
  split; [repeat split|].
  exact (zero_cost_summary (postgrest sample_table) defaultCompare "u9" [] w0
           eq_refl eq_refl eq_refl).
Defined.

(** ** Effects of the service *)

Lemma world_eta (w : World) :
  {| cache := cache w; console := console w ++ [] |} = w.
Proof. destruct w; simpl. now rewrite app_nil_r. Qed.

Lemma stateless_ret {A} (a : A) : stateless (ret a).
Proof. exists (Fulfilled a), []. intros w. unfold ret. now rewrite world_eta. Qed.

Lemma stateless_throw {A} (e : PostgrestError) : stateless (@throw A e).
Proof. exists (Rejected e), []. intros w. unfold throw. now rewrite world_eta. Qed.

Lemma stateless_console_error (msg : string) (e : PostgrestError) :
  stateless (console_error msg e).
Proof. now exists (Fulfilled tt), [(msg, e)]. Qed.

Lemma stateless_await (supabase : Remote) (q : Query) : stateless (await supabase q).
Proof.
  exists (Fulfilled (supabase q)), []. intros w. unfold await. now rewrite world_eta.
Qed.

Lemma stateless_bind {A B} (m : Eff A) (k : A -> Eff B) :
  stateless m -> (forall a, stateless (k a)) -> stateless (bind m k).
Proof.
  intros ([a|e] & log & Hm) Hk.
  - destruct (Hk a) as (r & log' & Hka). exists r, (log ++ log').
    intros w. unfold bind. rewrite Hm, Hka. simpl. now rewrite app_assoc.
  - exists (Rejected e), log. intros w. unfold bind. now rewrite Hm.
Qed.

Lemma stateless_try_catch {A} (body : Eff A) (handler : PostgrestError -> Eff A) :
  stateless body -> (forall e, stateless (handler e)) ->
  stateless (try_catch body handler).
Proof.
  intros ([a|e] & log & Hm) Hh.
  - exists (Fulfilled a), log. intros w. unfold try_catch. now rewrite Hm.
  - destruct (Hh e) as (r & log' & Hhe). exists r, (log ++ log').
    intros w. unfold try_catch. rewrite Hm, Hhe. simpl. now rewrite app_assoc.
Qed.

Create HintDb stateless.
#[local] Hint Resolve stateless_ret stateless_throw stateless_console_error
  stateless_await : stateless.

Ltac stateless_tac :=
  repeat first
    [ apply stateless_try_catch
    | apply stateless_bind
    | progress (auto with stateless)
    | intros ?r; destruct (resp_error r)
    | intro ].

Section Stateless.

Variable supabase : Remote.
Variable localeCompare : string -> string -> Z.

Lemma getUserPortfolio_stateless userId quarter year :
  stateless (getUserPortfolio supabase userId quarter year).
Proof. unfold getUserPortfolio. stateless_tac. Qed.

Lemma getQuarterlyPerformance_stateless userId :
  stateless (getQuarterlyPerformance supabase localeCompare userId).
Proof. unfold getQuarterlyPerformance. stateless_tac. Qed.

Lemma getAvailableQuarters_stateless userId :
  stateless (getAvailableQuarters supabase userId).
Proof. unfold getAvailableQuarters. stateless_tac. Qed.

Lemma getPortfolioSummary_stateless userId :
  stateless (getPortfolioSummary supabase localeCompare userId).
Proof.
  unfold getPortfolioSummary.
  apply stateless_try_catch; [|stateless_tac].
  apply stateless_bind; [apply getUserPortfolio_stateless|]. intros holdings.
  apply stateless_bind; [apply getQuarterlyPerformance_stateless|].
  intros q. apply stateless_ret.
Qed.

End Stateless.

Lemma stateless_cache {A} (m : Eff A) (w : World) :
  stateless m -> cache (snd (m w)) = cache w.
Proof. intros (r & log & H). now rewrite H. Qed.

Lemma stateless_blind {A} (m : Eff A) (w w' : World) :
  stateless m -> fst (m w) = fst (m w').
Proof. intros (r & log & H). now rewrite !H. Qed.

Lemma stateless_frame {A} (m : Eff A) (w : World) (c : gmap string CacheEntry) :
  stateless m -> m (with_cache c w) = (fst (m w), with_cache c (snd (m w))).
Proof. intros (r & log & H). now rewrite !H. Qed.

(** C5. A failed holdings fetch makes [getPortfolioSummary] reject with the
    error of the fetch, whereas a failed fetch inside
    [getQuarterlyPerformance] or [getAvailableQuarters] is caught there and
    the call resolves to the empty list; a summary whose quarterly fetch
    failed still resolves, with no quarterly performance. *)
Theorem fetch_failure_paths
    (supabase : Remote) (localeCompare : string -> string -> Z)
    (userId : string) (w : World) (e : PostgrestError) :
  (resp_error (supabase (portfolioQuery userId None None)) = Some e ->
   exists w', getPortfolioSummary supabase localeCompare userId w = (Rejected e, w'))
  /\ (resp_error (supabase (quarterlyQuery userId)) = Some e ->
      exists w', getQuarterlyPerformance supabase localeCompare userId w
                 = (Fulfilled [], w'))
  /\ (resp_error (supabase (quartersQuery userId)) = Some e ->
      exists w', getAvailableQuarters supabase userId w = (Fulfilled [], w'))
  /\ (resp_error (supabase (portfolioQuery userId None None)) = None ->
      resp_error (supabase (quarterlyQuery userId)) = Some e ->
      exists s w', getPortfolioSummary supabase localeCompare userId w
                   = (Fulfilled s, w')
                   /\ quarterlyPerformance s = []).
Proof.
  repeat split.
  - intros H. rewrite (getPortfolioSummary_rejects _ _ _ _ _ H). eauto.
  - intros H. rewrite (getQuarterlyPerformance_degrades _ _ _ _ _ H). eauto.
  - intros H. rewrite (getAvailableQuarters_degrades _ _ _ _ H). eauto.
  - intros H1 H2.
    destruct (getPortfolioSummary_resolves supabase localeCompare userId w H1)
      as (w' & Hrun & _).
    rewrite (getQuarterlyPerformance_degrades _ _ _ _ _ H2) in Hrun.
    eexists _, w'. split; [exact Hrun|reflexivity].
Qed.

(** A remote on which every request fails. *)
Lemma fetch_failure_paths_witness :
  (resp_error (unreachable outage (portfolioQuery "u1" None None)) = Some outage
   /\ resp_error (unreachable outage (quarterlyQuery "u1")) = Some outage
   /\ resp_error (unreachable outage (quartersQuery "u1")) = Some outage)
  /\ (exists w', getPortfolioSummary (unreachable outage) defaultCompare "u1" w0
                 = (Rejected outage, w'))
  /\ (exists w', getQuarterlyPerformance (unreachable outage) defaultCompare "u1" w0
                 = (Fulfilled [], w'))
  /\ (exists w', getAvailableQuarters (unreachable outage) "u1" w0
                 = (Fulfilled [], w')).
Proof.
  split; [repeat split|].
  destruct (fetch_failure_paths (unreachable outage) defaultCompare "u1" w0 outage)
    as (H1 & H2 & H3 & _).
  split; [exact (H1 eq_refl) | split; [exact (H2 eq_refl) | exact (H3 eq_refl)]].
Defined.

(** C8. The aggregation has no hidden state: the outcome of
    [getPortfolioSummary] is the same in every world (whatever the cache and
    the console hold), so a second invocation yields the same output as the
    first; the cache is never changed; when both fetches resolve the world is
    left exactly as it was; and the totals are those of [aggregate] applied
    to the fetched list, a function of that list alone. *)
Theorem aggregation_pure
    (supabase : Remote) (localeCompare : string -> string -> Z)
    (userId : string) (w w' : World) :
  let run := getPortfolioSummary supabase localeCompare userId in
  fst (run w) = fst (run w')
  /\ fst (run (snd (run w))) = fst (run w)
  /\ cache (snd (run w)) = cache w
  /\ (resp_error (supabase (portfolioQuery userId None None)) = None ->
      resp_error (supabase (quarterlyQuery userId)) = None ->
      run w =
      (Fulfilled
         (summaryOf
            (aggregate (orEmpty (resp_data (supabase (portfolioQuery userId None None)))))
            (quarterlyOf localeCompare (resp_data (supabase (quarterlyQuery userId))))),
       w)).
Proof.
  intros run.
  pose proof (getPortfolioSummary_stateless supabase localeCompare userId) as Hs.
  repeat split.
  - now apply stateless_blind.
  - now apply stateless_blind.
  - now apply stateless_cache.
  - intros H1 H2. subst run. unfold getPortfolioSummary, try_catch.
    unfold bind at 1. rewrite (getUserPortfolio_resolves _ _ _ _ _ H1).
    unfold bind. now rewrite (getQuarterlyPerformance_resolves _ _ _ _ H2).
Qed.

Lemma aggregation_pure_witness :
  let run := getPortfolioSummary (postgrest sample_table) defaultCompare "u1" in
  (resp_error (postgrest sample_table (portfolioQuery "u1" None None)) = None
   /\ resp_error (postgrest sample_table (quarterlyQuery "u1")) = None)
  /\ fst (run w0) = fst (run (logged w0 "earlier" outage))
  /\ fst (run (snd (run w0))) = fst (run w0)
  /\ snd (run w0) = w0.
Proof.
  intros run.
  destruct (aggregation_pure (postgrest sample_table) defaultCompare "u1"
              w0 (logged w0 "earlier" outage)) as (H1 & H2 & _ & H4).
  split; [split; reflexivity|].
  split; [exact H1 | split; [exact H2|]].
  fold run in H4. now rewrite (H4 eq_refl eq_refl).
Defined.

(** C9. None of the four fetch and aggregation operations reads or writes
    the cache: each leaves it as it was, and started with any other cache it
    settles with the same outcome and the same console, that cache still in
    place.  [clearCache] is the operation that changes it: it empties it and
    touches nothing else.  The expiry constant is five minutes in
    milliseconds. *)
Theorem cache_is_dead_state
    (supabase : Remote) (localeCompare : string -> string -> Z)
    (userId : string) (quarter : option string) (year : option Z)
    (w : World) (c : gmap string CacheEntry) :
  (cache (snd (getUserPortfolio supabase userId quarter year w)) = cache w
   /\ getUserPortfolio supabase userId quarter year (with_cache c w)
      = (fst (getUserPortfolio supabase userId quarter year w),
         with_cache c (snd (getUserPortfolio supabase userId quarter year w))))
  /\ (cache (snd (getPortfolioSummary supabase localeCompare userId w)) = cache w
      /\ getPortfolioSummary supabase localeCompare userId (with_cache c w)
         = (fst (getPortfolioSummary supabase localeCompare userId w),
            with_cache c (snd (getPortfolioSummary supabase localeCompare userId w))))
  /\ (cache (snd (getQuarterlyPerformance supabase localeCompare userId w)) = cache w
      /\ getQuarterlyPerformance supabase localeCompare userId (with_cache c w)
         = (fst (getQuarterlyPerformance supabase localeCompare userId w),
            with_cache c (snd (getQuarterlyPerformance supabase localeCompare userId w))))
  /\ (cache (snd (getAvailableQuarters supabase userId w)) = cache w
      /\ getAvailableQuarters supabase userId (with_cache c w)
         = (fst (getAvailableQuarters supabase userId w),
            with_cache c (snd (getAvailableQuarters supabase userId w))))
  /\ clearCache w = (Fulfilled tt, with_cache ∅ w)
  /\ CACHE_DURATION = 300000.
Proof.
  pose proof (getUserPortfolio_stateless supabase userId quarter year).
  pose proof (getPortfolioSummary_stateless supabase localeCompare userId).
  pose proof (getQuarterlyPerformance_stateless supabase localeCompare userId).
  pose proof (getAvailableQuarters_stateless supabase userId).
  repeat split; auto using stateless_cache, stateless_frame.
Qed.

(** ** The holdings fetch *)

Lemma StronglySorted_impl {A} (R R' : A -> A -> Prop) (l : list A) :
  (forall x y, R x y -> R' x y) -> StronglySorted R l -> StronglySorted R' l.
Proof.
  intros H. induction 1 as [|x l Hs IH Hall]; constructor; [exact IH|].
  eapply Forall_impl; [exact Hall|]. intros y. apply H.
Qed.

Lemma sign_of_compare_le (x y : Z) : sign_of (x ?= y) <= 0 <-> x <= y.
Proof. destruct (Z.compare_spec x y); cbn [sign_of]; lia. Qed.

(** Most recently created first. *)
Lemma order_created_desc_sorted (rows : list PortfolioHolding) :
  StronglySorted (fun a b => created_at b <= created_at a)
    (order_rows (Some (col_created_at, false)) rows).
Proof.
  simpl.
  apply StronglySorted_impl with
    (R := before (fun a b => sign_of (created_at b ?= created_at a))).
  - unfold before. intros x y H. now rewrite sign_of_compare_le in H.
  - apply sort_by_sorted.
    + intros x y H. rewrite sign_of_compare_le.
      destruct (Z.compare_spec (created_at y) (created_at x));
        cbn [sign_of] in H; lia.
    + unfold before. intros x y z. rewrite !sign_of_compare_le. lia.
Qed.

(** The filters a call collects: the user always, the quarter when it is a
    non-empty string, the year when it is a non-zero number. *)
Lemma portfolioQuery_filters (userId : string) (quarter : option string)
    (year : option Z) :
  q_filters (portfolioQuery userId quarter year) =
  [(col_user_id, VString userId)]
  ++ match quarter with
     | Some q => if truthy_string q then [(col_quarter, VString q)] else []
     | None => []
     end
  ++ match year with
     | Some y => if truthy_number y then [(col_year, VInt y)] else []
     | None => []
     end.
Proof.
  unfold portfolioQuery.
  destruct quarter as [q|], year as [y|]; simpl;
    repeat match goal with
           | |- context [truthy_string ?q] => destruct (truthy_string q)
           | |- context [truthy_number ?y] => destruct (truthy_number y)
           end; reflexivity.
Qed.

Lemma portfolioQuery_order (userId : string) (quarter : option string)
    (year : option Z) :
  q_order (portfolioQuery userId quarter year) = Some (col_created_at, false).
Proof.
  unfold portfolioQuery.
  destruct quarter as [q|], year as [y|]; simpl;
    repeat match goal with
           | |- context [truthy_string ?q] => destruct (truthy_string q)
           | |- context [truthy_number ?y] => destruct (truthy_number y)
           end; reflexivity.
Qed.

Lemma truthy_string_iff (s : string) : truthy_string s = true <-> s <> EmptyString.
Proof.
  unfold truthy_string. rewrite negb_true_iff. apply String.eqb_neq.
Qed.

Lemma truthy_number_iff (n : Z) : truthy_number n = true <-> n <> 0.
Proof.
  unfold truthy_number. rewrite negb_true_iff. apply Z.eqb_neq.
Qed.

Lemma satisfies_portfolioQuery (userId : string) (oq : option string)
    (oy : option Z) (h : PortfolioHolding) :
  satisfies (q_filters (portfolioQuery userId oq oy)) h = true <->
  user_id h = userId
  /\ (forall q, oq = Some q -> q <> EmptyString -> quarter h = q)
  /\ (forall y, oy = Some y -> y <> 0 -> year h = y).
Proof.
  rewrite portfolioQuery_filters. unfold satisfies.
  rewrite !forallb_app, !andb_true_iff. simpl. rewrite andb_true_r.
  unfold matches. simpl. rewrite String.eqb_eq.
  apply and_iff_compat_l.
  match goal with |- (?a /\ ?b) <-> (?c /\ ?d) =>
    cut ((a <-> c) /\ (b <-> d)); [tauto | split] end.
  - destruct oq as [q|]; [|split; [intros _ ? [=]|reflexivity]].
    destruct (truthy_string q) eqn:E; simpl.
    + rewrite andb_true_r, String.eqb_eq. apply truthy_string_iff in E.
      split; [intros H q' [= <-] _; exact H | intros H; now apply H].
    + split; [|reflexivity]. intros _ q' [= <-] Hq.
      apply truthy_string_iff in Hq. congruence.
  - destruct oy as [y|]; [|split; [intros _ ? [=]|reflexivity]].
    destruct (truthy_number y) eqn:E; simpl.
    + rewrite andb_true_r, Z.eqb_eq. apply truthy_number_iff in E.
      split; [intros H y' [= <-] _; exact H | intros H; now apply H].
    + split; [|reflexivity]. intros _ y' [= <-] Hy.
      apply truthy_number_iff in Hy. congruence.
Qed.

(** C6, as the code has it.  Against a remote that answers from a table,
    [getUserPortfolio] resolves to exactly the rows of the user that match
    every filter in force, most recently created first; a quarter is in force
    when it is a non-empty string and a year when it is a non-zero number (an
    empty quarter or a zero year is treated like an absent one).  The filters
    in force are conjunctive.  Whatever the remote, an error of the fetch is
    rethrown to the caller. *)
Theorem getUserPortfolio_contract
    (table : list PortfolioHolding) (userId : string)
    (oquarter : option string) (oyear : option Z) (w : World) :
  (exists rows,
     getUserPortfolio (postgrest table) userId oquarter oyear w = (Fulfilled rows, w)
     /\ (forall h, In h rows <->
           In h table /\ user_id h = userId
           /\ (forall q, oquarter = Some q -> q <> EmptyString -> quarter h = q)
           /\ (forall y, oyear = Some y -> y <> 0 -> year h = y))
     /\ StronglySorted (fun a b => created_at b <= created_at a) rows)
  /\ (forall (supabase : Remote) (e : PostgrestError),
        resp_error (supabase (portfolioQuery userId oquarter oyear)) = Some e ->
        exists w', getUserPortfolio supabase userId oquarter oyear w = (Rejected e, w')).
Proof.
  split.
  - exists (run_query table (portfolioQuery userId oquarter oyear)).
    split; [reflexivity|]. split.
    + intros h. rewrite run_query_In, satisfies_portfolioQuery. reflexivity.
    + unfold run_query. rewrite portfolioQuery_order.
      apply order_created_desc_sorted.
  - intros supabase e H. rewrite (getUserPortfolio_rejects _ _ _ _ _ _ H). eauto.
Qed.

Lemma getUserPortfolio_contract_witness :
  resp_error (unreachable outage (portfolioQuery "u1" (Some "Q1"%string) (Some 2024)))
  = Some outage
  /\ getUserPortfolio (postgrest sample_table) "u1" (Some "Q1"%string) (Some 2024) w0
     = (Fulfilled
          [mkHolding "h1" "u1" "TCS" 10 (Qc_of_Z 90) (Qc_of_Z 100) "Q1" 2024 1000],
        w0)
  /\ exists w', getUserPortfolio (unreachable outage) "u1" (Some "Q1"%string)
                  (Some 2024) w0 = (Rejected outage, w').
Proof.
  split; [reflexivity|]. split; [reflexivity|].
  exact (proj2 (getUserPortfolio_contract sample_table "u1" (Some "Q1"%string)
                  (Some 2024) w0) (unreachable outage) outage eq_refl).
Defined.

(** Both filters are passed, the quarter as the empty string: a row of
    quarter "Q1" is returned, and the whole list comes newest first. *)
Lemma empty_quarter_is_not_a_filter :
  getUserPortfolio (postgrest sample_table) "u1" (Some EmptyString) (Some 2024) w0
  = (Fulfilled
       [mkHolding "h3" "u1" "TITAN" 5 (Qc_of_Z 40) (Qc_of_Z 50) "Q2" 2024 3000;
        mkHolding "h1" "u1" "TCS" 10 (Qc_of_Z 90) (Qc_of_Z 100) "Q1" 2024 1000],
     w0)
  /\ ~ (forall h,
          In h (valueOr [] (fst (getUserPortfolio (postgrest sample_table) "u1"
                                   (Some EmptyString) (Some 2024) w0))) ->
          quarter h = EmptyString /\ year h = 2024).
Proof.
  split; [reflexivity|]. intros H.
  destruct (H (mkHolding "h1" "u1" "TCS" 10 (Qc_of_Z 90) (Qc_of_Z 100) "Q1" 2024 1000))
    as [Hq _]; [right; left; reflexivity | discriminate Hq].
Qed.

(** ** Server-side and client-side aggregation *)








(** On no rows the aggregates are [NULL]; only the percentage is 0. *)
Lemma get_portfolio_summary_no_rows (userId : string) :
  get_portfolio_summary [] userId =
  {| total_value := None; total_cost := None; total_gain_loss := None;
     total_gain_loss_percent := Some 0%Qc; total_shares := None |}.
Proof. reflexivity. Qed.

Lemma filter_user_nil (table : list PortfolioHolding) (userId : string) :
  (forall h, In h table -> user_id h <> userId) ->
  List.filter (fun h => String.eqb (user_id h) userId) table = [].
Proof.
  induction table as [|x table IH]; intros H; simpl; [reflexivity|].
  destruct (String.eqb_spec (user_id x) userId) as [Heq|_].
  - exfalso. apply (H x); [now left | exact Heq].
  - apply IH. intros h Hh. apply H. now right.
Qed.




(** ** Grouping by quarter *)

Lemma map_get_In (m : QuarterMap) (k : string) (v : QuarterTotals) :
  map_get m k = Some v -> In (k, v) m.
Proof.
  induction m as [|[k' v'] m IH]; simpl; [discriminate|].
  destruct (String.eqb_spec k' k) as [->|Hne].
  - intros [= ->]. now left.
  - intros H. right. now apply IH.
Qed.

Lemma map_get_None (m : QuarterMap) (k : string) :
  map_get m k = None -> ~ In k (map fst m).
Proof.
  induction m as [|[k' v'] m IH]; simpl; [tauto|].
  destruct (String.eqb_spec k' k) as [->|Hne]; [discriminate|].
  intros H [Heq|Hin]; [congruence | now apply IH].
Qed.

Lemma map_set_absent (m : QuarterMap) (k : string) (v : QuarterTotals) :
  map_get m k = None -> map_set m k v = m ++ [(k, v)].
Proof.
  induction m as [|[k' v'] m IH]; simpl; [reflexivity|].
  destruct (String.eqb_spec k' k) as [->|Hne]; [discriminate|].
  intros H. now rewrite IH.
Qed.

Lemma map_set_present_keys (m : QuarterMap) (k : string) (e v : QuarterTotals) :
  map_get m k = Some e -> map fst (map_set m k v) = map fst m.
Proof.
  induction m as [|[k' v'] m IH]; simpl; [discriminate|].
  destruct (String.eqb_spec k' k) as [->|Hne]; [reflexivity|].
  intros H. simpl. now rewrite IH.
Qed.

Lemma map_set_In (m : QuarterMap) (k : string) (v : QuarterTotals)
    (k' : string) (t : QuarterTotals) :
  List.NoDup (map fst m) ->
  In (k', t) (map_set m k v) ->
  (k' = k /\ t = v) \/ (k' <> k /\ In (k', t) m).
Proof.
  induction m as [|[k0 v0] m IH]; simpl; intros Hnd.
  - intros [[= <- <-]|[]]. now left.
  - inversion Hnd as [|? ? Hnotin Hnd']; subst.
    destruct (String.eqb_spec k0 k) as [->|Hne]; simpl.
    + intros [[= <- <-]|Hin]; [now left|]. right.
      split; [|now right]. intros ->. apply Hnotin.
      change k with (fst (k, t)). now apply in_map.
    + intros [[= <- <-]|Hin]; [right; split; [exact Hne | now left]|].
      destruct (IH Hnd' Hin) as [?|[? ?]]; [now left | right; split; [|right]];
        assumption.
Qed.

Lemma spec_totals_snoc (hs : list PortfolioHolding) (h : PortfolioHolding) :
  spec_total_value (hs ++ [h])
  = (spec_total_value hs + Qc_of_Z (shares h) * current_price h)%Qc
  /\ spec_total_cost (hs ++ [h])
     = (spec_total_cost hs + Qc_of_Z (shares h) * purchase_price h)%Qc.
Proof.
  unfold spec_total_value, spec_total_cost.
  induction hs as [|x hs [IHv IHc]]; simpl; [split; ring|].
  rewrite IHv, IHc. split; ring.
Qed.

Lemma groupOf_snoc (k : string) (hs : list PortfolioHolding) (h : PortfolioHolding) :
  groupOf k (hs ++ [h]) =
  groupOf k hs ++ (if String.eqb (quarterKey h) k then [h] else []).
Proof.
  unfold groupOf. rewrite List.filter_app. simpl.
  now destruct (String.eqb (quarterKey h) k).
Qed.

Lemma groupOf_absent (k : string) (hs : list PortfolioHolding) :
  ~ In k (map quarterKey hs) -> groupOf k hs = [].
Proof.
  induction hs as [|x hs IH]; simpl; [reflexivity|]. intros H.
  destruct (String.eqb_spec (quarterKey x) k) as [Heq|Hne]; [tauto|].
  apply IH. tauto.
Qed.

Lemma grouped_step (hs : list PortfolioHolding) (m : QuarterMap)
    (h : PortfolioHolding) :
  grouped hs m -> grouped (hs ++ [h]) (groupStep m h).
Proof.
  intros (Hnd & Hkeys & Htot). unfold groupStep.
  set (k0 := quarterKey h).
  destruct (map_get m k0) as [e|] eqn:Hget.
  - (* the key is already in the map *)
    pose proof (map_get_In _ _ _ Hget) as Hin.
    assert (Hk0 : In k0 (map fst m)).
    { change k0 with (fst (k0, e)). now apply in_map. }
    repeat split.
    + now rewrite (map_set_present_keys _ _ _ _ Hget).
    + rewrite (map_set_present_keys _ _ _ _ Hget), Hkeys, map_app, in_app_iff.
      tauto.
    + rewrite (map_set_present_keys _ _ _ _ Hget), map_app, in_app_iff.
      intros [H|[<-|[]]]; [now apply Hkeys | exact Hk0].
    + intros k t Hset. rewrite groupOf_snoc.
      destruct (map_set_In _ _ _ _ _ Hnd Hset) as [[-> ->]|[Hne Hin']].
      * fold k0. rewrite String.eqb_refl. unfold totalsOf.
        destruct (spec_totals_snoc (groupOf k0 hs) h) as [-> ->].
        rewrite (Htot _ _ Hin). reflexivity.
      * destruct (String.eqb_spec (quarterKey h) k) as [Heq|_]; [now subst|].
        rewrite app_nil_r. now apply Htot.
  - (* a new key is appended *)
    pose proof (map_get_None _ _ Hget) as Hnotin.
    rewrite (map_set_absent _ _ _ Hget). repeat split.
    + rewrite map_app. simpl. apply List.NoDup_app.
      * exact Hnd.
      * repeat constructor. intros [].
      * intros x Hx [<-|[]]. now apply Hnotin.
    + rewrite !map_app, !in_app_iff, Hkeys. simpl. tauto.
    + rewrite !map_app, !in_app_iff, Hkeys. simpl. tauto.
    + intros k t [Hin|[[= <- <-]|[]]]%in_app_iff; rewrite groupOf_snoc.
      * destruct (String.eqb_spec (quarterKey h) k) as [Heq|_].
        -- exfalso. apply Hnotin. fold k0 in Heq. subst k.
           change k0 with (fst (k0, t)). now apply in_map.
        -- rewrite app_nil_r. now apply Htot.
      * fold k0. rewrite String.eqb_refl.
        rewrite groupOf_absent by (now rewrite <- Hkeys).
        unfold totalsOf, spec_total_value, spec_total_cost. simpl.
        f_equal; ring.
Qed.

Lemma forEach_groupStep_grouped (hs : list PortfolioHolding) :
  grouped hs (forEach hs groupStep []).
Proof.
  induction hs as [|h hs IH] using rev_ind.
  - repeat split; simpl; try tauto. apply List.NoDup_nil.
  - unfold forEach in *. rewrite fold_left_app. simpl. now apply grouped_step.
Qed.

Lemma toPerformance_quarters (m : QuarterMap) :
  map qp_quarter (map toPerformance m) = map fst m.
Proof.
  induction m as [|[k t] m IH]; simpl; [reflexivity|]. now rewrite IH.
Qed.

Lemma sgn_defaultCompare (a b : string) :
  Z.sgn (defaultCompare a b) = defaultCompare a b.
Proof. unfold defaultCompare. now destruct (String.compare a b). Qed.

Lemma sort_by_descending_keys {A} (key : A -> string) (l : list A) :
  StronglySorted (fun a b => str_le (key b) (key a))
    (sort_by (fun a b => defaultCompare (key b) (key a)) l).
Proof.
  apply StronglySorted_impl with
    (R := before (fun a b => defaultCompare (key b) (key a))).
  - intros x y H. now apply defaultCompare_le.
  - apply sort_by_sorted.
    + intros x y. apply defaultCompare_total.
    + unfold before. intros x y z H1 H2.
      apply defaultCompare_le. apply defaultCompare_le in H1, H2.
      now apply str_le_trans with (key y).
Qed.

Lemma StronglySorted_strict {A} (key : A -> string) (l : list A) :
  StronglySorted (fun a b => str_le (key b) (key a)) l ->
  List.NoDup (map key l) ->
  StronglySorted (fun a b => String.compare (key b) (key a) = Lt) l.
Proof.
  induction 1 as [|x l Hs IH Hall]; simpl; intros Hnd; [constructor|].
  inversion Hnd as [|? ? Hnotin Hnd']; subst.
  constructor; [now apply IH|].
  apply List.Forall_forall. intros y Hy.
  rewrite List.Forall_forall in Hall. specialize (Hall y Hy). unfold str_le in Hall.
  destruct (String.compare (key y) (key x)) eqn:E; [|reflexivity|congruence].
  apply String.compare_eq_iff in E. exfalso. apply Hnotin. rewrite <- E.
  now apply in_map.
Qed.

Lemma toPerformance_percentReturn (k : string) (t : QuarterTotals) :
  toPerformance (k, t) =
  {| qp_quarter := k;
     qp_performance := percentReturn (qt_totalValue t) (qt_totalCost t) |}.
Proof. reflexivity. Qed.



(** Two groups, "Q2 2024" (25 percent) before "Q1 2024" (100/9 percent). *)
Example quarterly_example :
  map qp_quarter (quarterlyOf defaultCompare
                    (Some (run_query sample_table (quarterlyQuery "u1"))))
  = ["Q2 2024"; "Q1 2024"]%string
  /\ map qp_performance (quarterlyOf defaultCompare
                           (Some (run_query sample_table (quarterlyQuery "u1"))))
     = [Qc_of_Z 25; Q2Qc (100 # 9)].
Proof.
  split; [vm_compute; reflexivity|].
  simpl map.
  repeat (apply (f_equal2 cons); [apply Qc_is_canon; vm_compute; reflexivity|]).
  reflexivity.
Qed.

(** ** Listing the quarters *)

Lemma existsb_eqb_In (k : string) (s : list string) :
  existsb (String.eqb k) s = true <-> In k s.
Proof.
  rewrite existsb_exists. split.
  - intros (x & Hx & Heq). apply String.eqb_eq in Heq. now subst.
  - intros H. exists k. split; [exact H | apply String.eqb_refl].
Qed.

Lemma fold_set_add_In (keys acc : list string) (k : string) :
  In k (fold_left set_add keys acc) <-> In k acc \/ In k keys.
Proof.
  revert acc. induction keys as [|x keys IH]; intros acc; simpl; [tauto|].
  rewrite IH. unfold set_add.
  destruct (existsb (String.eqb x) acc) eqn:E.
  - apply existsb_eqb_In in E. split; [tauto|]. intros [H|[<-|H]]; tauto.
  - rewrite in_app_iff. simpl. tauto.
Qed.

Lemma fold_set_add_NoDup (keys acc : list string) :
  List.NoDup acc -> List.NoDup (fold_left set_add keys acc).
Proof.
  revert acc. induction keys as [|x keys IH]; intros acc Hnd; simpl; [exact Hnd|].
  apply IH. unfold set_add.
  destruct (existsb (String.eqb x) acc) eqn:E; [exact Hnd|].
  apply List.NoDup_app; [exact Hnd | repeat constructor; intros [] |].
  intros a Ha [<-|[]]. apply existsb_eqb_In in Ha. congruence.
Qed.

Lemma quartersOf_In (hs : list PortfolioHolding) (k : string) :
  In k (quartersOf (Some hs)) <-> In k (map quarterKey hs).
Proof.
  unfold quartersOf, new_Set. simpl.
  rewrite <- in_rev, sort_by_In, fold_set_add_In. simpl. tauto.
Qed.

Lemma quartersOf_NoDup (hs : list PortfolioHolding) :
  List.NoDup (quartersOf (Some hs)).
Proof.
  unfold quartersOf, new_Set. simpl. apply List.NoDup_rev.
  apply (Permutation_NoDup (l := fold_left set_add (map quarterKey hs) [])).
  - symmetry. apply sort_by_perm.
  - apply fold_set_add_NoDup. apply List.NoDup_nil.
Qed.

(** C7. When the fetch resolves to a list of holdings,
    [getAvailableQuarters] resolves to a list in which every composite label
    ["quarter year"] of the holdings occurs exactly once and nothing else
    occurs; three rows of quarter "Q1" and year 2024 give the single label
    "Q1 2024". *)
Theorem getAvailableQuarters_distinct
    (supabase : Remote) (userId : string) (hs : list PortfolioHolding) (w : World) :
  resp_error (supabase (quartersQuery userId)) = None ->
  resp_data (supabase (quartersQuery userId)) = Some hs ->
  exists l,
    getAvailableQuarters supabase userId w = (Fulfilled l, w)
    /\ List.NoDup l
    /\ (forall k, In k l <-> exists h, In h hs /\ quarterKey h = k)
    /\ (forall h1 h2 h3,
          hs = [h1; h2; h3] ->
          (forall h, In h hs -> quarter h = "Q1"%string /\ year h = 2024) ->
          l = ["Q1 2024"%string]).
Proof.
  intros Herr Hdata.
  rewrite (getAvailableQuarters_resolves _ _ _ Herr), Hdata.
  eexists. split; [reflexivity|]. split; [apply quartersOf_NoDup|]. split.
  - intros k. rewrite quartersOf_In, in_map_iff. split.
    + intros (h & Hk & Hin). eauto.
    + intros (h & Hin & Hk). eauto.
  - intros h1 h2 h3 -> Hall.
    assert (Hkey : forall h, In h [h1; h2; h3] -> quarterKey h = "Q1 2024"%string).
    { intros h Hh. destruct (Hall h Hh) as [Hq Hy]. unfold quarterKey.
      rewrite Hq, Hy. reflexivity. }
    unfold quartersOf. simpl.
    rewrite (Hkey h1), (Hkey h2), (Hkey h3) by (simpl; tauto).
    reflexivity.
Qed.

Lemma getAvailableQuarters_distinct_witness :
  let table :=
    [ mkHolding "a" "u1" "TCS" 1 (Qc_of_Z 1) (Qc_of_Z 1) "Q1" 2024 1;
      mkHolding "b" "u1" "INFY" 2 (Qc_of_Z 2) (Qc_of_Z 2) "Q1" 2024 2;
      mkHolding "c" "u1" "TITAN" 3 (Qc_of_Z 3) (Qc_of_Z 3) "Q1" 2024 3 ] in
  (resp_error (postgrest table (quartersQuery "u1")) = None
   /\ resp_data (postgrest table (quartersQuery "u1")) = Some table)
  /\ getAvailableQuarters (postgrest table) "u1" w0
     = (Fulfilled ["Q1 2024"%string], w0).
Proof.
  intros table. split; [split; reflexivity|].
  destruct (getAvailableQuarters_distinct (postgrest table) "u1" table w0
              eq_refl eq_refl) as (l & Hrun & _ & _ & Hthree).
  rewrite Hrun. f_equal. f_equal.
  apply (Hthree _ _ _ eq_refl).
  intros h [<-|[<-|[<-|[]]]]; split; reflexivity.
Defined.

(** ** The dashboard *)

Section Dashboard.

Variable supabase : Remote.
Variable localeCompare : string -> string -> Z.


End Dashboard.



(* ------------------------------------------------------------------ *)
(** * Further properties of the service and the dashboard *)

(** ** Order of the listed quarters *)

Lemma StronglySorted_app_snoc {A} (R : A -> A -> Prop) (l : list A) (x : A) :
  StronglySorted R l -> Forall (fun y => R y x) l -> StronglySorted R (l ++ [x]).
Proof.
  induction 1 as [|y l Hs IH Hall]; intros Hx; simpl.
  - repeat constructor.
  - inversion Hx; subst. constructor; [now apply IH|].
    apply Forall_app. split; [exact Hall | now repeat constructor].
Qed.

Lemma StronglySorted_rev {A} (R : A -> A -> Prop) (l : list A) :
  StronglySorted R l -> StronglySorted (fun a b => R b a) (rev l).
Proof.
  induction 1 as [|x l Hs IH Hall]; simpl; [constructor|].
  apply StronglySorted_app_snoc; [exact IH|].
  apply List.Forall_forall. intros y Hy. apply in_rev in Hy.
  rewrite List.Forall_forall in Hall. now apply Hall.
Qed.

Lemma str_desc_irrefl (a : string) : ~ str_desc a a.
Proof. unfold str_desc. now rewrite compare_refl. Qed.

Lemma str_desc_asym (a b : string) : str_desc a b -> str_desc b a -> False.
Proof.
  unfold str_desc. intros H1 H2. rewrite String.compare_antisym, H2 in H1.
  discriminate.
Qed.

(** Two strictly sorted lists with the same elements are the same list. *)
Lemma strict_sorted_unique {A} (R : A -> A -> Prop) (l l' : list A) :
  (forall x, ~ R x x) -> (forall x y, R x y -> R y x -> False) ->
  StronglySorted R l -> StronglySorted R l' ->
  (forall x, In x l <-> In x l') -> l = l'.
Proof.
  intros Hirr Hasym Hl. revert l'.
  induction Hl as [|x l Hs IH Hall]; intros l' Hl' Hin.
  - destruct l' as [|y l']; [reflexivity|]. destruct (proj2 (Hin y)). now left.
  - destruct Hl' as [|y l' Hs' Hall']; [destruct (proj1 (Hin x)); now left|].
    rewrite List.Forall_forall in Hall, Hall'.
    assert (Hxy : x = y).
    { destruct (proj1 (Hin x)) as [E|Hx]; [now left | now symmetry |].
      destruct (proj2 (Hin y)) as [E|Hy]; [now left | exact E |].
      destruct (Hasym x y); auto. }
    subst y. f_equal. apply IH; [exact Hs'|]. intros z. split; intros Hz.
    + destruct (proj1 (Hin z)) as [E|Hz']; [now right | | exact Hz'].
      subst z. destruct (Hirr x). now apply Hall.
    + destruct (proj2 (Hin z)) as [E|Hz']; [now right | | exact Hz'].
      subst z. destruct (Hirr x). now apply Hall'.
Qed.

Lemma quartersOf_sorted (data : option (list PortfolioHolding)) :
  StronglySorted str_desc (quartersOf data).
Proof.
  assert (Hnd : List.NoDup (quartersOf data)).
  { destruct data as [hs|]; [apply quartersOf_NoDup | apply List.NoDup_nil]. }
  apply (StronglySorted_strict (fun s => s)); [|now rewrite map_id].
  unfold quartersOf. apply StronglySorted_rev.
  apply StronglySorted_impl with (R := before defaultCompare).
  - intros x y H. now apply defaultCompare_le.
  - apply sort_by_sorted.
    + apply defaultCompare_total.
    + unfold before. intros x y z H1 H2.
      apply defaultCompare_le. apply defaultCompare_le in H1, H2.
      now apply str_le_trans with y.
Qed.

(** X1. Whatever the remote answers, the list [getAvailableQuarters]
    resolves to is in strictly descending code-unit order (so it has no
    duplicates): its first element, when there is one, is the greatest label. *)
Theorem getAvailableQuarters_descending
    (supabase : Remote) (userId : string) (w : World) :
  exists l w',
    getAvailableQuarters supabase userId w = (Fulfilled l, w')
    /\ StronglySorted str_desc l
    /\ (forall k, In k l -> str_le k (hd EmptyString l)).
Proof.
  assert (Hhd : forall l, StronglySorted str_desc l ->
                          forall k, In k l -> str_le k (hd EmptyString l)).
  { intros l Hl k Hk. destruct Hl as [|x l Hs Hall]; [destruct Hk|]. simpl.
    destruct Hk as [<-|Hk].
    - unfold str_le. now rewrite compare_refl.
    - rewrite List.Forall_forall in Hall. specialize (Hall k Hk).
      unfold str_desc in Hall. unfold str_le. now rewrite Hall. }
  destruct (resp_error (supabase (quartersQuery userId))) as [e|] eqn:E.
  - rewrite (getAvailableQuarters_degrades _ _ _ _ E).
    eexists _, _. split; [reflexivity|]. split; [constructor | intros k []].
  - rewrite (getAvailableQuarters_resolves _ _ _ E).
    eexists _, _. split; [reflexivity|].
    split; [apply quartersOf_sorted | apply Hhd, quartersOf_sorted].
Qed.

(** ** The groups as a function of the holdings *)

Lemma quarterlyOf_keys_sorted (localeCompare : string -> string -> Z)
    (hs : list PortfolioHolding) :
  (forall a b, In a (map quarterKey hs) -> In b (map quarterKey hs) ->
               Z.sgn (localeCompare a b) = defaultCompare a b) ->
  StronglySorted (fun a b => str_desc (qp_quarter a) (qp_quarter b))
    (quarterlyOf localeCompare (Some hs)).
Proof.
  intros Hlc. unfold quarterlyOf. cbn [orEmpty].
  destruct (forEach_groupStep_grouped hs) as (Hnd & Hkeys & _).
  set (m := forEach hs groupStep []) in *.
  set (cmpL := fun a b => localeCompare (qp_quarter b) (qp_quarter a)).
  set (cmpD := fun a b => defaultCompare (qp_quarter b) (qp_quarter a)).
  assert (Hext : sort_by cmpL (map toPerformance m)
                 = sort_by cmpD (map toPerformance m)).
  { apply sort_by_ext. intros x y Hx Hy. unfold cmpL, cmpD.
    assert (Hk : forall g, In g (map toPerformance m) ->
                           In (qp_quarter g) (map quarterKey hs)).
    { intros g Hg. apply Hkeys. rewrite <- toPerformance_quarters.
      now apply in_map. }
    rewrite <- (Hlc _ _ (Hk y Hy) (Hk x Hx)).
    destruct (localeCompare (qp_quarter y) (qp_quarter x)); reflexivity. }
  rewrite Hext. apply StronglySorted_strict; [apply sort_by_descending_keys|].
  apply (Permutation_NoDup (l := map fst m)); [|exact Hnd].
  rewrite <- toPerformance_quarters. apply Permutation_map. symmetry.
  apply sort_by_perm.
Qed.

(** The elements of the result: one entry per key of the input, with the
    percent return of the holdings of that key. *)
Lemma quarterlyOf_In (localeCompare : string -> string -> Z)
    (hs : list PortfolioHolding) (g : QuarterPerformance) :
  In g (quarterlyOf localeCompare (Some hs)) <->
  In (qp_quarter g) (map quarterKey hs)
  /\ qp_performance g =
     percentReturn (spec_total_value (groupOf (qp_quarter g) hs))
                   (spec_total_cost (groupOf (qp_quarter g) hs)).
Proof.
  unfold quarterlyOf. cbn [orEmpty]. rewrite sort_by_In.
  destruct (forEach_groupStep_grouped hs) as (Hnd & Hkeys & Htot).
  set (m := forEach hs groupStep []) in *. rewrite in_map_iff. split.
  - intros ([k t] & <- & Hin). rewrite toPerformance_percentReturn.
    cbn [qp_quarter qp_performance]. split.
    + apply Hkeys. change k with (fst (k, t)). now apply in_map.
    + now rewrite (Htot _ _ Hin).
  - intros [Hk Hp]. apply Hkeys, in_map_iff in Hk as ([k t] & Hfst & Hin).
    simpl in Hfst. exists (k, t). split; [|exact Hin].
    rewrite toPerformance_percentReturn. destruct g as [q p]. simpl in *.
    subst q. f_equal. now rewrite Hp, (Htot _ _ Hin).
Qed.




Lemma StronglySorted_map {A B} (f : A -> B) (R : B -> B -> Prop) (l : list A) :
  StronglySorted (fun a b => R (f a) (f b)) l -> StronglySorted R (map f l).
Proof.
  induction 1 as [|x l Hs IH Hall]; simpl; constructor; [exact IH|].
  apply List.Forall_forall. intros y Hy. apply in_map_iff in Hy as (z & <- & Hz).
  rewrite List.Forall_forall in Hall. now apply Hall.
Qed.

(** X3. The labels of the quarterly performances are the list of available
    quarters: computed from the same rows, [getQuarterlyPerformance] and
    [getAvailableQuarters] name the same quarters in the same order (for a
    [localeCompare] that orders the labels as the code-unit order does). *)
Theorem quarterly_labels_are_available_quarters
    (localeCompare : string -> string -> Z) (hs : list PortfolioHolding) :
  (forall a b, In a (map quarterKey hs) -> In b (map quarterKey hs) ->
               Z.sgn (localeCompare a b) = defaultCompare a b) ->
  map qp_quarter (quarterlyOf localeCompare (Some hs)) = quartersOf (Some hs).
Proof.
  intros Hlc. apply strict_sorted_unique with (R := str_desc).
  - apply str_desc_irrefl.
  - apply str_desc_asym.
  - apply StronglySorted_map. now apply quarterlyOf_keys_sorted.
  - apply quartersOf_sorted.
  - intros k. rewrite quartersOf_In, in_map_iff. split.
    + intros (g & <- & Hg). now apply quarterlyOf_In in Hg.
    + intros Hk.
      exists {| qp_quarter := k;
                qp_performance :=
                  percentReturn (spec_total_value (groupOf k hs))
                                (spec_total_cost (groupOf k hs)) |}.
      split; [reflexivity|]. apply quarterlyOf_In. now split.
Qed.

Lemma quarterly_labels_are_available_quarters_witness :
  let hs := run_query sample_table (quarterlyQuery "u1") in
  (forall a b, In a (map quarterKey hs) -> In b (map quarterKey hs) ->
               Z.sgn (defaultCompare a b) = defaultCompare a b)
  /\ map qp_quarter (quarterlyOf defaultCompare (Some hs)) = quartersOf (Some hs).
Proof.
  intros hs.
  assert (Hlc : forall a b, In a (map quarterKey hs) -> In b (map quarterKey hs) ->
                            Z.sgn (defaultCompare a b) = defaultCompare a b).
  { intros a b _ _. apply sgn_defaultCompare. }
  split; [exact Hlc|].
  exact (quarterly_labels_are_available_quarters defaultCompare hs Hlc).
Defined.

(** ** Loading the dashboard *)

Lemma getAvailableQuarters_total (supabase : Remote) (userId : string) (w : World) :
  exists l w', getAvailableQuarters supabase userId w = (Fulfilled l, w')
               /\ cache w' = cache w.
Proof.
  destruct (resp_error (supabase (quartersQuery userId))) as [e|] eqn:E.
  - rewrite (getAvailableQuarters_degrades _ _ _ _ E). eauto.
  - rewrite (getAvailableQuarters_resolves _ _ _ E). eauto.
Qed.

(** X4. A load of the dashboard always ends with the spinner off and with
    the list of quarters the listing returned; it ends without an error
    message exactly when neither the holdings query for the shown selection
    nor the unfiltered holdings query of the summary returned an error (a
    failure of the quarter listing or of the quarterly query alone never
    surfaces), and otherwise with the one generic message; without a user it
    does nothing.  The cache is left as it was. *)
Theorem loadPortfolioData_outcome
    (supabase : Remote) (localeCompare : string -> string -> Z)
    (userId : string) (render : DashboardState) (w : World) :
  let st := fst (loadPortfolioData supabase localeCompare (Some userId) render w) in
  let w' := snd (loadPortfolioData supabase localeCompare (Some userId) render w) in
  let args := quarterArgs (shownQuarter supabase userId render w) in
  loading st = false
  /\ availableQuarters st = valueOr [] (fst (getAvailableQuarters supabase userId w))
  /\ (error st = None <->
      resp_error (supabase (portfolioQuery userId (fst args) (snd args))) = None
      /\ resp_error (supabase (portfolioQuery userId None None)) = None)
  /\ (error st = None
      \/ error st = Some "Failed to load portfolio data. Please try again."%string)
  /\ cache w' = cache w
  /\ loadPortfolioData supabase localeCompare None render w = (render, w).
Proof.
  intros st w' args. subst st w' args.
  unfold loadPortfolioData, loadPortfolioData_try, shownQuarter.
  destruct (getAvailableQuarters_total supabase userId w) as (l & w1 & -> & Hc1).
  cbn [fst valueOr].
  set (label := orElse (selectedQuarter render) (orElse (hd EmptyString l) EmptyString)).
  destruct (quarterArgs label) as [q y]. cbn [fst snd].
  destruct (resp_error (supabase (portfolioQuery userId q y))) as [e|] eqn:E2.
  - rewrite (getUserPortfolio_rejects _ _ _ _ _ _ E2). simpl.
    destruct (negb _ && _); simpl; repeat split; auto; try discriminate;
      intros [? _]; discriminate.
  - rewrite (getUserPortfolio_resolves _ _ _ _ _ E2).
    destruct (resp_error (supabase (portfolioQuery userId None None)))
      as [e|] eqn:E3.
    + rewrite (getPortfolioSummary_rejects _ _ _ _ _ E3). simpl.
      destruct (negb _ && _); simpl; repeat split; auto; try discriminate;
        intros [_ ?]; simpl in *; congruence.
    + destruct (getPortfolioSummary_resolves supabase localeCompare userId w1 E3)
        as (w3 & -> & Hc3).
      simpl. destruct (negb _ && _); simpl; repeat split; auto; congruence.
Qed.

(** X5. A load that fails keeps what was on screen: when the holdings query
    for the shown selection fails, both the holdings and the summary are
    those of the previous render; when only the unfiltered holdings query of
    the summary fails, the new holdings are shown above the previous
    summary. *)
Theorem loadPortfolioData_failure_keeps_previous
    (supabase : Remote) (localeCompare : string -> string -> Z)
    (userId : string) (render : DashboardState) (w : World) (e : PostgrestError) :
  let st := fst (loadPortfolioData supabase localeCompare (Some userId) render w) in
  let args := quarterArgs (shownQuarter supabase userId render w) in
  (resp_error (supabase (portfolioQuery userId (fst args) (snd args))) = Some e ->
   holdings st = holdings render /\ summary st = summary render)
  /\ (resp_error (supabase (portfolioQuery userId (fst args) (snd args))) = None ->
      resp_error (supabase (portfolioQuery userId None None)) = Some e ->
      holdings st
      = orEmpty (resp_data (supabase (portfolioQuery userId (fst args) (snd args))))
      /\ summary st = summary render).
Proof.
  intros st args. subst st args.
  unfold loadPortfolioData, loadPortfolioData_try, shownQuarter.
  destruct (getAvailableQuarters_total supabase userId w) as (l & w1 & -> & Hc1).
  cbn [fst valueOr].
  set (label := orElse (selectedQuarter render) (orElse (hd EmptyString l) EmptyString)).
  destruct (quarterArgs label) as [q y]. cbn [fst snd].
  split.
  - intros E2. rewrite (getUserPortfolio_rejects _ _ _ _ _ _ E2). simpl.
    destruct (negb _ && _); simpl; split; reflexivity.
  - intros E2 E3. rewrite (getUserPortfolio_resolves _ _ _ _ _ E2).
    rewrite (getPortfolioSummary_rejects _ _ _ _ _ E3). simpl.
    destruct (negb _ && _); simpl; split; reflexivity.
Qed.

Lemma loadPortfolioData_failure_keeps_previous_witness :
  let render :=
    setSummary (Some (summaryOf (aggregate sample_table) []))
      (setHoldings sample_table (dashboard "Q1 2024")) in
  let st := fst (loadPortfolioData (unreachable outage) defaultCompare
                   (Some "u1"%string) render w0) in
  resp_error (unreachable outage (portfolioQuery "u1" (Some "Q1"%string) (Some 2024)))
  = Some outage
  /\ holdings st = sample_table
  /\ summary st = Some (summaryOf (aggregate sample_table) []).
Proof.
  intros render st. split; [reflexivity|].
  exact (proj1 (loadPortfolioData_failure_keeps_previous (unreachable outage)
                  defaultCompare "u1" render w0 outage) eq_refl).
Defined.

(** X6. Changing the quarter records the new selection and refetches the
    holdings, and touches nothing else: the summary, the list of quarters
    and the spinner stay as they were.  When the fetch succeeds the holdings
    are replaced and an error message already on screen is not cleared; when
    it fails the holdings stay and the message for a failed quarter is set. *)
Theorem handleQuarterChange_effect
    (supabase : Remote) (userId quarter : string) (st : DashboardState) (w : World) :
  let st' := fst (handleQuarterChange supabase (Some userId) quarter st w) in
  let args := quarterArgs quarter in
  selectedQuarter st' = quarter
  /\ summary st' = summary st
  /\ availableQuarters st' = availableQuarters st
  /\ loading st' = loading st
  /\ (resp_error (supabase (portfolioQuery userId (fst args) (snd args))) = None ->
      holdings st'
      = orEmpty (resp_data (supabase (portfolioQuery userId (fst args) (snd args))))
      /\ error st' = error st)
  /\ (resp_error (supabase (portfolioQuery userId (fst args) (snd args))) <> None ->
      holdings st' = holdings st
      /\ error st' = Some "Failed to load data for selected quarter"%string).
Proof.
  intros st' args. subst st' args. unfold handleQuarterChange.
  destruct (quarterArgs quarter) as [q y]. cbn [fst snd].
  destruct (resp_error (supabase (portfolioQuery userId q y))) as [e|] eqn:E.
  - rewrite (getUserPortfolio_rejects _ _ _ _ _ _ E). simpl.
    repeat split; try reflexivity; intros; congruence.
  - rewrite (getUserPortfolio_resolves _ _ _ _ _ E). simpl.
    repeat split; try reflexivity; intros; congruence.
Qed.

Lemma handleQuarterChange_effect_witness :
  let st := setError (Some "Failed to load portfolio data. Please try again."%string)
              (dashboard "Q1 2024") in
  let st' := fst (handleQuarterChange (postgrest sample_table) (Some "u1"%string)
                    "Q2 2024" st w0) in
  resp_error (postgrest sample_table (portfolioQuery "u1" (Some "Q2"%string) (Some 2024)))
  = None
  /\ map id (holdings st') = ["h3"%string]
  /\ error st' = Some "Failed to load portfolio data. Please try again."%string.
Proof.
  intros st st'. split; [reflexivity|].
  destruct (handleQuarterChange_effect (postgrest sample_table) "u1" "Q2 2024" st w0)
    as (_ & _ & _ & _ & Hok & _).
  destruct (Hok eq_refl) as [Hh He]. fold st' in Hh, He.
  split; [now rewrite Hh | exact He].
Defined.

(** ** Labels: building them and taking them apart *)

Lemma is_digit_pretty_N_char (d : N) : is_digit (pretty_N_char d) = true.
Proof. unfold pretty_N_char. repeat case_match; reflexivity. Qed.

Lemma digit_value_pretty_N_char (d : N) :
  (d < 10)%N -> digit_value (pretty_N_char d) = Some (Z.of_N d).
Proof.
  intros H.
  assert (d = 0 \/ d = 1 \/ d = 2 \/ d = 3 \/ d = 4 \/ d = 5 \/ d = 6 \/ d = 7
          \/ d = 8 \/ d = 9)%N as Hd by lia.
  repeat (destruct Hd as [->|Hd]; [reflexivity|]). now subst.
Qed.

Lemma pretty_N_go_digits (x : N) (s : string) :
  all_digits s = true -> all_digits (pretty_N_go x s) = true.
Proof.
  revert s. induction (N.lt_wf_0 x) as [x _ IH]; intros s Hs.
  assert (x = 0 \/ 0 < x)%N as [->|Hx] by lia; [now rewrite pretty_N_go_0|].
  rewrite pretty_N_go_step by exact Hx. apply IH; [now apply N.div_lt|].
  simpl. now rewrite is_digit_pretty_N_char, Hs.
Qed.

Lemma parse_digits_cons (d : N) (s : string) (acc : option Z) :
  (d < 10)%N ->
  parse_digits 10 (String (pretty_N_char d) s) acc
  = parse_digits 10 s (Some (default 0 acc * 10 + Z.of_N d)).
Proof.
  intros H. simpl. rewrite (digit_value_pretty_N_char d H).
  assert (Hlt : (Z.of_N d <? 10) = true) by (apply Z.ltb_lt; lia).
  now rewrite Hlt.
Qed.

(** Reading back the digits written for [x] continues from [acc] shifted
    by as many places. *)
Lemma parse_pretty_N_go (x : N) :
  (0 < x)%N ->
  exists k, 0 <= k /\ forall s acc,
    parse_digits 10 (pretty_N_go x s) acc
    = parse_digits 10 s (Some (default 0 acc * 10 ^ k + Z.of_N x)).
Proof.
  induction (N.lt_wf_0 x) as [x _ IH]; intros Hx.
  assert (Hmod : (x `mod` 10 < 10)%N) by (apply N.mod_lt; lia).
  destruct (N.eq_0_gt_0_cases (x `div` 10)) as [Hd|Hd].
  - exists 1. split; [lia|]. intros s acc.
    rewrite pretty_N_go_step, Hd, pretty_N_go_0 by exact Hx.
    rewrite parse_digits_cons by exact Hmod. do 2 f_equal.
    assert (Hdm : (x = 10 * x `div` 10 + x `mod` 10)%N) by (apply N.div_mod; lia).
    rewrite Hd in Hdm. rewrite Hdm at 2.
    generalize (x `mod` 10)%N. intros r. lia.
  - destruct (IH (x `div` 10)%N) as (k & Hk & Hparse);
      [now apply N.div_lt | exact Hd |].
    exists (k + 1). split; [lia|]. intros s acc.
    rewrite pretty_N_go_step, Hparse by exact Hx.
    rewrite parse_digits_cons by exact Hmod. do 2 f_equal. cbn [default].
    rewrite Z.pow_add_r, Z.pow_1_r, Z.mul_assoc by lia. unfold Datatypes.id.
    assert (Hdm : (x = 10 * x `div` 10 + x `mod` 10)%N) by (apply N.div_mod; lia).
    rewrite Hdm at 3.
    generalize (x `mod` 10)%N (x `div` 10)%N (default 0 acc * 10 ^ k).
    intros r q a. lia.
Qed.

Lemma option_map_mul_1 (o : option Z) : option_map (Z.mul 1) o = o.
Proof. destruct o as [z|]; [|reflexivity]. simpl. f_equal. now destruct z. Qed.

Ltac digit_cases c H :=
  destruct c as [[] [] [] [] [] [] [] []]; try discriminate H.

(** On a non-empty string of decimal digits [parseInt] finds no white
    space, no sign and no [0x] prefix. *)
Lemma parseInt_digits (s : string) :
  all_digits s = true -> s <> EmptyString ->
  parseInt s = parse_digits 10 s None.
Proof.
  destruct s as [|c s]; [congruence|]. intros H _.
  apply andb_prop in H as [Hc Hs].
  destruct s as [|c2 s].
  - digit_cases c Hc; reflexivity.
  - apply andb_prop in Hs as [Hc2 Hs].
    digit_cases c Hc; try (unfold parseInt; cbn [skip_spaces is_space N_of_ascii];
                           simpl; apply option_map_mul_1).
    digit_cases c2 Hc2; unfold parseInt; simpl; apply option_map_mul_1.
Qed.

Lemma parseInt_minus_digits (s : string) :
  all_digits s = true -> s <> EmptyString ->
  parseInt (String "-" s) = option_map (Z.mul (-1)) (parse_digits 10 s None).
Proof.
  destruct s as [|c s]; [congruence|]. intros H _.
  apply andb_prop in H as [Hc Hs].
  destruct s as [|c2 s].
  - digit_cases c Hc; reflexivity.
  - apply andb_prop in Hs as [Hc2 Hs].
    digit_cases c Hc; try (unfold parseInt; simpl; reflexivity).
    digit_cases c2 Hc2; unfold parseInt; simpl; reflexivity.
Qed.

Lemma pretty_pos_digits (p : positive) :
  all_digits (pretty_N_go (N.pos p) EmptyString) = true
  /\ pretty_N_go (N.pos p) EmptyString <> EmptyString
  /\ parse_digits 10 (pretty_N_go (N.pos p) EmptyString) None = Some (Z.pos p).
Proof.
  destruct (parse_pretty_N_go (N.pos p)) as (k & Hk & Hparse); [lia|].
  specialize (Hparse EmptyString None). simpl in Hparse.
  split; [now apply pretty_N_go_digits|]. split; [|exact Hparse].
  intros E. rewrite E in Hparse. discriminate Hparse.
Qed.

(** [parseInt] reads back the decimal string of any integer. *)
Lemma parseInt_pretty (y : Z) : parseInt (pretty y) = Some y.
Proof.
  destruct y as [|p|p].
  - reflexivity.
  - destruct (pretty_pos_digits p) as (Hd & Hne & Hv).
    change (pretty (Z.pos p)) with (pretty_N_go (N.pos p) EmptyString).
    now rewrite parseInt_digits, Hv.
  - destruct (pretty_pos_digits p) as (Hd & Hne & Hv).
    change (pretty (Z.neg p)) with (String "-" (pretty_N_go (N.pos p) EmptyString)).
    now rewrite parseInt_minus_digits, Hv.
Qed.

Lemma all_digits_no_space (s : string) : all_digits s = true -> no_space s = true.
Proof.
  induction s as [|c s IH]; [reflexivity|]. simpl. intros H.
  apply andb_prop in H as [Hc Hs]. rewrite (IH Hs), andb_true_r.
  digit_cases c Hc; reflexivity.
Qed.

Lemma pretty_Z_no_space (y : Z) :
  no_space (pretty y) = true /\ pretty y <> EmptyString.
Proof.
  destruct y as [|p|p].
  - split; [reflexivity | discriminate].
  - destruct (pretty_pos_digits p) as (Hd & Hne & _).
    change (pretty (Z.pos p)) with (pretty_N_go (N.pos p) EmptyString).
    split; [now apply all_digits_no_space | exact Hne].
  - destruct (pretty_pos_digits p) as (Hd & _ & _).
    change (pretty (Z.neg p)) with (String "-" (pretty_N_go (N.pos p) EmptyString)).
    split; [|discriminate]. simpl. now apply all_digits_no_space.
Qed.

Lemma split_space_no_space (s : string) :
  no_space s = true -> split_space s = [s].
Proof.
  induction s as [|c s IH]; [reflexivity|]. simpl. intros H.
  apply andb_prop in H as [Hc Hs]. apply negb_true_iff in Hc.
  now rewrite Hc, (IH Hs).
Qed.

Lemma split_space_app (q rest : string) :
  no_space q = true ->
  split_space (q +:+ String " " rest) = q :: split_space rest.
Proof.
  induction q as [|c q IH]; [reflexivity|]. simpl. intros H.
  apply andb_prop in H as [Hc Hq]. apply negb_true_iff in Hc.
  now rewrite Hc, (IH Hq).
Qed.

Lemma quarterArgs_quarterKey (h : PortfolioHolding) :
  no_space (quarter h) = true ->
  quarterArgs (quarterKey h) = (Some (quarter h), Some (year h)).
Proof.
  intros Hq. destruct (pretty_Z_no_space (year h)) as [Hns Hne].
  unfold quarterArgs, quarterKey.
  change (quarter h +:+ " " +:+ pretty (year h))
    with (quarter h +:+ String " " (pretty (year h))).
  rewrite split_space_app, split_space_no_space by assumption.
  cbn [nth_error]. apply truthy_string_iff in Hne.
  now rewrite Hne, parseInt_pretty.
Qed.

Lemma split_space_head (s : string) :
  exists p rest, split_space s = p :: rest /\ no_space p = true.
Proof.
  induction s as [|c s (p & rest & IH & Hp)]; simpl.
  - now exists EmptyString, [].
  - destruct (Ascii.eqb c " ") eqn:E.
    + now exists EmptyString, (split_space s).
    + rewrite IH. exists (String c p), rest. split; [reflexivity|].
      simpl. now rewrite E, Hp.
Qed.

(** X7. The dashboard takes a label apart with [split(' ')] and
    [parseInt]; for a label built by the service from a holding this gives
    back the quarter exactly when the quarter contains no space, and then it
    gives back the year as well. *)
Theorem label_round_trip (h : PortfolioHolding) :
  (fst (quarterArgs (quarterKey h)) = Some (quarter h)
   <-> no_space (quarter h) = true)
  /\ (no_space (quarter h) = true ->
      quarterArgs (quarterKey h) = (Some (quarter h), Some (year h))).
Proof.
  split; [split|].
  - unfold quarterArgs. cbn [fst].
    destruct (split_space_head (quarterKey h)) as (p & rest & -> & Hp).
    cbn [nth_error]. now intros [= <-].
  - intros H. now rewrite quarterArgs_quarterKey.
  - apply quarterArgs_quarterKey.
Qed.

Lemma label_round_trip_witness :
  let h := mkHolding "h1" "u1" "TCS" 10 (Qc_of_Z 90) (Qc_of_Z 100) "Q1" 2024 1000 in
  no_space (quarter h) = true
  /\ quarterArgs (quarterKey h) = (Some "Q1"%string, Some 2024).
Proof.
  intros h. split; [reflexivity|].
  exact (proj2 (label_round_trip h) eq_refl).
Defined.



Lemma no_space_app_space (q d : string) : no_space (q +:+ String " " d) = false.
Proof.
  induction q as [|c q IH]; [reflexivity|]. simpl. rewrite IH. apply andb_false_r.
Qed.

Lemma append_space_inj (q1 q2 d1 d2 : string) :
  no_space d1 = true -> no_space d2 = true ->
  q1 +:+ String " " d1 = q2 +:+ String " " d2 -> q1 = q2 /\ d1 = d2.
Proof.
  revert q2. induction q1 as [|c q1 IH]; intros [|c2 q2] H1 H2; simpl.
  - now intros [= ->].
  - intros [= <- ->]. now rewrite no_space_app_space in H1.
  - intros [= -> <-]. now rewrite no_space_app_space in H2.
  - intros [= <- E]. destruct (IH q2 H1 H2 E) as [-> ->]. now split.
Qed.

(** X9. The composite label determines the quarter and the year, whatever
    characters the quarter contains: two holdings have the same label exactly
    when they have the same quarter and the same year, so a group of
    [getQuarterlyPerformance] holds the rows of one quarter of one year and
    no others. *)
Theorem quarterKey_injective (h1 h2 : PortfolioHolding) (hs : list PortfolioHolding) :
  (quarterKey h1 = quarterKey h2 <-> quarter h1 = quarter h2 /\ year h1 = year h2)
  /\ (forall h, In h (groupOf (quarterKey h1) hs)
                <-> In h hs /\ quarter h = quarter h1 /\ year h = year h1).
Proof.
  assert (Hinj : forall a b, quarterKey a = quarterKey b <->
                             quarter a = quarter b /\ year a = year b).
  { intros a b. split.
    - unfold quarterKey. intros E.
      change (quarter a +:+ String " " (pretty (year a))
              = quarter b +:+ String " " (pretty (year b))) in E.
      apply append_space_inj in E as [Hq Hy];
        try apply pretty_Z_no_space.
      split; [exact Hq|]. now apply (inj pretty).
    - unfold quarterKey. now intros [-> ->]. }
  split; [apply Hinj|]. intros h. unfold groupOf.
  rewrite filter_In, String.eqb_eq, Hinj. tauto.
Qed.

(** ** The default selection *)





(** ** What the grouping loop conserves *)






(** ** Signs of the figures on screen *)










(** ** Quarters and the whole *)





(** ** Row level security *)

Lemma filter_filter_impl {A} (f g : A -> bool) (l : list A) :
  (forall x, f x = true -> g x = true) ->
  List.filter f (List.filter g l) = List.filter f l.
Proof.
  intros H. induction l as [|x l IH]; simpl; [reflexivity|].
  destruct (g x) eqn:Eg; simpl.
  - now rewrite IH.
  - destruct (f x) eqn:Ef; [|exact IH]. apply H in Ef. congruence.
Qed.

Lemma filter_none {A} (f : A -> bool) (l : list A) :
  (forall x, In x l -> f x = false) -> List.filter f l = [].
Proof.
  induction l as [|x l IH]; intros H; simpl; [reflexivity|].
  rewrite (H x) by now left. apply IH. intros y Hy. apply H. now right.
Qed.

Lemma run_query_own (table : list PortfolioHolding) (userId : string)
    (oq : option string) (oy : option Z) :
  run_query (List.filter (can_read (Some userId)) table) (portfolioQuery userId oq oy)
  = run_query table (portfolioQuery userId oq oy).
Proof.
  unfold run_query. f_equal. apply filter_filter_impl. intros h Hs.
  apply satisfies_portfolioQuery in Hs as (Hu & _). simpl.
  rewrite Hu. apply String.eqb_refl.
Qed.

Lemma filter_user_other (table : list PortfolioHolding) (auth : option string)
    (userId : string) :
  auth <> Some userId ->
  List.filter (fun h => String.eqb (user_id h) userId)
    (List.filter (can_read auth) table) = [].
Proof.
  intros Hne. apply filter_none. intros h Hh. apply filter_In in Hh as [_ Hr].
  apply String.eqb_neq. intros Hu. apply Hne. destruct auth as [a|]; [|discriminate].
  simpl in Hr. apply String.eqb_eq in Hr. congruence.
Qed.

Lemma run_query_other (table : list PortfolioHolding) (auth : option string)
    (userId : string) (oq : option string) (oy : option Z) :
  auth <> Some userId ->
  run_query (List.filter (can_read auth) table) (portfolioQuery userId oq oy) = [].
Proof.
  intros Hne. apply Permutation_nil. rewrite run_query_perm. 
  rewrite filter_none; [reflexivity|]. intros h Hh.
  destruct (satisfies _ h) eqn:Hs; [|reflexivity].
  apply satisfies_portfolioQuery in Hs as (Hu & _).
  pose proof (filter_user_other table auth userId Hne) as Hnil.
  assert (Hin : In h (List.filter (fun h => String.eqb (user_id h) userId)
                        (List.filter (can_read auth) table))).
  { apply filter_In. split; [exact Hh | now apply String.eqb_eq]. }
  rewrite Hnil in Hin. destruct Hin.
Qed.

(** X15. With the read policy of the table in force, a caller gets through
    the service only rows it owns: asking for its own holdings it is served
    as without the policy, and asking for those of any other user (or asking
    unauthenticated) it gets no holdings, no quarters and a summary of
    zeros, not an error. *)
Theorem read_policy_isolates_users
    (table : list PortfolioHolding) (auth : option string)
    (localeCompare : string -> string -> Z)
    (userId : string) (oq : option string) (oy : option Z) (w : World) :
  (forall h,
     In h (valueOr [] (fst (getUserPortfolio (postgrest_as auth table)
                              userId oq oy w))) ->
     auth = Some (user_id h) /\ user_id h = userId)
  /\ (auth = Some userId ->
      getUserPortfolio (postgrest_as auth table) userId oq oy w
      = getUserPortfolio (postgrest table) userId oq oy w)
  /\ (auth <> Some userId ->
      getUserPortfolio (postgrest_as auth table) userId oq oy w = (Fulfilled [], w)
      /\ getAvailableQuarters (postgrest_as auth table) userId w = (Fulfilled [], w)
      /\ getPortfolioSummary (postgrest_as auth table) localeCompare userId w =
         (Fulfilled {| totalValue := 0%Qc; totalGainLoss := 0%Qc;
                       totalGainLossPercent := 0%Qc; totalShares := 0;
                       quarterlyPerformance := [] |}, w)).
Proof.
  unfold postgrest_as. split; [|split].
  - intros h. rewrite getUserPortfolio_resolves by reflexivity.
    cbn [fst valueOr orEmpty resp_data postgrest].
    rewrite run_query_In, satisfies_portfolioQuery, filter_In.
    intros ((_ & Hr) & Hu & _). split; [|exact Hu].
    destruct auth as [a|]; [|discriminate]. simpl in Hr.
    apply String.eqb_eq in Hr. now subst.
  - intros ->. rewrite !getUserPortfolio_resolves by reflexivity.
    cbn [orEmpty resp_data postgrest]. now rewrite run_query_own.
  - intros Hne. split; [|split].
    + rewrite getUserPortfolio_resolves by reflexivity.
      cbn [orEmpty resp_data postgrest]. now rewrite run_query_other.
    + rewrite getAvailableQuarters_resolves by reflexivity.
      cbn [resp_data postgrest].
      now rewrite run_quartersQuery, filter_user_other.
    + apply no_holdings_summary. now apply run_query_other.
Qed.

Lemma read_policy_isolates_users_witness :
  (Some "u2"%string <> Some "u1"%string /\ Some "u1"%string = Some "u1"%string)
  /\ getUserPortfolio (postgrest_as (Some "u2"%string) sample_table)
       "u1" None None w0 = (Fulfilled [], w0)
  /\ getUserPortfolio (postgrest_as (Some "u1"%string) sample_table)
       "u1" None None w0
     = getUserPortfolio (postgrest sample_table) "u1" None None w0.
Proof.
  split; [split; [discriminate | reflexivity]|].
  destruct (read_policy_isolates_users sample_table (Some "u2"%string)
              defaultCompare "u1" None None w0) as (_ & _ & Hother).
  destruct (read_policy_isolates_users sample_table (Some "u1"%string)
              defaultCompare "u1" None None w0) as (_ & Hown & _).
  split; [apply Hother; discriminate | now apply Hown].
Defined.

(** ** Seeding a portfolio *)

Lemma for_loop_app {A S} (l1 l2 : list A) (body : A -> S -> option S) (s : S) :
  SampleData.for_loop (l1 ++ l2) body s =
  match SampleData.for_loop l1 body s with
  | Some s' => SampleData.for_loop l2 body s'
  | None => None
  end.
Proof.
  revert s. induction l1 as [|x l1 IH]; intros s; simpl; [reflexivity|].
  destruct (body x s) as [s'|]; [apply IH | reflexivity].
Qed.

Lemma for_loop_ext {A S} (xs : list A) (b1 b2 : A -> S -> option S) (s : S) :
  (forall x s, b1 x s = b2 x s) ->
  SampleData.for_loop xs b1 s = SampleData.for_loop xs b2 s.
Proof.
  intros H. revert s. induction xs as [|x xs IH]; intros s; simpl; [reflexivity|].
  rewrite H. destruct (b2 x s); [apply IH | reflexivity].
Qed.

Lemma for_loop_flat_map {A B S} (f : A -> list B) (xs : list A)
    (body : B -> S -> option S) (s : S) :
  SampleData.for_loop (flat_map f xs) body s =
  SampleData.for_loop xs (fun x => SampleData.for_loop (f x) body) s.
Proof.
  revert s. induction xs as [|x xs IH]; intros s; simpl; [reflexivity|].
  rewrite for_loop_app. destruct (SampleData.for_loop (f x) body s); [apply IH|].
  reflexivity.
Qed.

Lemma for_loop_map {A B S} (g : A -> B) (xs : list A)
    (body : B -> S -> option S) (s : S) :
  SampleData.for_loop (map g xs) body s =
  SampleData.for_loop xs (fun x => body (g x)) s.
Proof.
  revert s. induction xs as [|x xs IH]; intros s; simpl; [reflexivity|].
  destruct (body (g x) s); [apply IH | reflexivity].
Qed.

(** The three nested loops run the plan. *)
Lemma create_sample_runs_plan (host : SampleData.Host) (target : string)
    (db : SampleData.Db) :
  SampleData.create_sample_portfolio_data host target db =
  SampleData.for_loop SampleData.plan
    (fun '(s, y, q) => SampleData.insert_sample host target s y q) db.
Proof.
  unfold SampleData.create_sample_portfolio_data, SampleData.plan.
  rewrite for_loop_flat_map. apply for_loop_ext. intros s d.
  rewrite for_loop_flat_map. apply for_loop_ext. intros y d'.
  now rewrite for_loop_map.
Qed.

(** A draw scaled to a width and shifted down stays in the shifted range. *)
Lemma scaled_draw_range (r k c : Qc) :
  (0 <= r)%Qc -> (r < 1)%Qc -> (0 <= k)%Qc ->
  (0 - c <= r * k - c)%Qc /\ (r * k - c <= k - c)%Qc.
Proof.
  intros H0 H1 Hk. split; apply Qcplus_le_mono_r.
  - rewrite <- (Qcmult_0_l k). now apply Qcmult_le_compat_r.
  - rewrite <- (Qcmult_1_l k) at 2. apply Qcmult_le_compat_r; [|exact Hk].
    now apply Qclt_le_weak.
Qed.

Lemma sample_row_shares (host : SampleData.Host) (target : string) (n i : nat)
    (s : SampleData.Stock) (y : Z) (q : string) :
  SampleData.sound_host host ->
  SampleData.base_shares s - 10
  <= shares (SampleData.sample_row host target n i s y q)
  <= SampleData.base_shares s + 10.
Proof.
  intros (Hr & Hint & _). destruct (Hr n) as [H0 H1].
  destruct (scaled_draw_range (SampleData.random host n) (Qc_of_Z 20) (Qc_of_Z 10)
              H0 H1) as [Hlo Hhi]; [discriminate|].
  cbn [SampleData.sample_row shares].
  assert (Hb : -10 <= SampleData.to_integer host
                        (SampleData.random host n * Qc_of_Z 20 - Qc_of_Z 10)%Qc
               <= 10).
  { apply Hint.
    - replace (Qc_of_Z (-10)) with (0 - Qc_of_Z 10)%Qc
        by (apply Qc_is_canon; reflexivity). exact Hlo.
    - replace (Qc_of_Z 10) with (Qc_of_Z 20 - Qc_of_Z 10)%Qc at 2
        by (apply Qc_is_canon; reflexivity). exact Hhi. }
  lia.
Qed.

Lemma stored_price_pos (host : SampleData.Host) (p r k c : Qc) (floor : Z) :
  SampleData.sound_host host ->
  (0 <= r)%Qc -> (r < 1)%Qc -> (0 <= k)%Qc ->
  (Qc_of_Z floor <= p)%Qc ->
  (Qc_of_Z 1 <= Qc_of_Z floor + (0 - c))%Qc ->
  (0 < SampleData.to_decimal host (p + (r * k - c)))%Qc.
Proof.
  intros (_ & _ & Hdec) H0 H1 Hk Hp Hfloor.
  destruct (scaled_draw_range r k c H0 H1 Hk) as [Hlo _].
  apply Qclt_le_trans with (Qc_of_Z 1); [reflexivity|].
  apply Hdec. apply Qcle_trans with (Qc_of_Z floor + (0 - c))%Qc; [exact Hfloor|].
  now apply Qcplus_le_compat.
Qed.

Lemma sample_row_checks (host : SampleData.Host) (target : string) (n i : nat)
    (s : SampleData.Stock) (y : Z) (q : string) :
  SampleData.sound_host host -> SampleData.stock_ok s -> 2020 <= y ->
  holding_checks (SampleData.sample_row host target n i s y q)
  /\ SampleData.holding_checks_b (SampleData.sample_row host target n i s y q)
     = true.
Proof.
  intros Hhost (Hs & Hp & Hc) Hy.
  pose proof (sample_row_shares host target n i s y q Hhost) as Hsh.
  pose proof Hhost as (Hr & Hint & Hdec).
  assert (Hpp : (0 < purchase_price (SampleData.sample_row host target n i s y q))%Qc).
  { cbn [SampleData.sample_row purchase_price].
    destruct (Hr (n + 1)%nat) as [H0 H1].
    apply (stored_price_pos host _ _ _ _ 51); try assumption; discriminate. }
  assert (Hcp : (0 < current_price (SampleData.sample_row host target n i s y q))%Qc).
  { cbn [SampleData.sample_row current_price].
    destruct (Hr (n + 2)%nat) as [H0 H1].
    apply (stored_price_pos host _ _ _ _ 101); try assumption; discriminate. }
  assert (Hchecks : holding_checks (SampleData.sample_row host target n i s y q)).
  { repeat split; try assumption; lia. }
  split; [exact Hchecks|].
  destruct Hchecks as (C1 & C2 & C3 & C4). unfold SampleData.holding_checks_b.
  rewrite (proj2 (gtb_true_iff _ _) C2), (proj2 (gtb_true_iff _ _) C3).
  rewrite (proj2 (Z.ltb_lt _ _) C1), (proj2 (Z.leb_le _ _) C4). reflexivity.
Qed.

Lemma plan_ok :
  Forall (fun p => SampleData.stock_ok (fst (fst p)) /\ 2020 <= snd (fst p))
    SampleData.plan.
Proof.
  apply List.Forall_forall. intros [[s y] q] Hin. cbn [fst snd].
  unfold SampleData.plan in Hin.
  apply in_flat_map in Hin as (s' & Hs & Hin).
  apply in_flat_map in Hin as (y' & Hy & Hin).
  apply in_map_iff in Hin as (q' & [= <- <- <-] & Hq).
  split.
  - assert (Hall : Forall SampleData.stock_ok SampleData.stocks_values).
    { repeat constructor; try discriminate; cbn; lia. }
    rewrite List.Forall_forall in Hall. now apply Hall.
  - destruct Hy as [<-|[<-|[]]]; lia.
Qed.

Lemma run_plan (host : SampleData.Host) (target : string)
    (todo : list (SampleData.Stock * Z * string)) (db : SampleData.Db) :
  SampleData.sound_host host ->
  In target (SampleData.users db) ->
  Forall (fun p => SampleData.stock_ok (fst (fst p)) /\ 2020 <= snd (fst p)) todo ->
  SampleData.for_loop todo
    (fun '(s, y, q) => SampleData.insert_sample host target s y q) db
  = Some {| SampleData.users := SampleData.users db;
            SampleData.portfolio_holdings :=
              SampleData.portfolio_holdings db
              ++ SampleData.rows_from host target (SampleData.random_calls db)
                   (SampleData.uuid_calls db) todo;
            SampleData.random_calls :=
              (SampleData.random_calls db + 4 * length todo)%nat;
            SampleData.uuid_calls := (SampleData.uuid_calls db + length todo)%nat |}.
Proof.
  intros Hhost Htarget Hok. revert db Htarget.
  induction Hok as [|[[s y] q] todo [Hs Hy] Hok IH]; intros db Htarget.
  - destruct db as [u t n i]. simpl. rewrite app_nil_r.
    do 2 f_equal; lia.
  - cbn [fst snd] in Hs, Hy. cbn [SampleData.for_loop].
    unfold SampleData.insert_sample, SampleData.insert.
    destruct (sample_row_checks host target (SampleData.random_calls db)
                (SampleData.uuid_calls db) s y q Hhost Hs Hy) as [_ Hb].
    rewrite Hb.
    change (user_id (SampleData.sample_row host target (SampleData.random_calls db)
                       (SampleData.uuid_calls db) s y q)) with target.
    cbn [SampleData.users].
    rewrite (proj2 (existsb_eqb_In target (SampleData.users db)) Htarget).
    cbn [andb].
    rewrite IH by exact Htarget.
    cbn [SampleData.users SampleData.portfolio_holdings SampleData.random_calls
         SampleData.uuid_calls SampleData.rows_from length].
    rewrite <- app_assoc. cbn [app]. do 2 f_equal; lia.
Qed.

Lemma rows_from_length (host : SampleData.Host) (target : string) (n i : nat)
    (todo : list (SampleData.Stock * Z * string)) :
  length (SampleData.rows_from host target n i todo) = length todo.
Proof.
  revert n i. induction todo as [|[[s y] q] todo IH]; intros n i; simpl;
    [reflexivity | now rewrite IH].
Qed.

Lemma rows_from_In (host : SampleData.Host) (target : string) (n i : nat)
    (todo : list (SampleData.Stock * Z * string)) (h : PortfolioHolding) :
  In h (SampleData.rows_from host target n i todo) ->
  exists n' i' s y q,
    In (s, y, q) todo /\ h = SampleData.sample_row host target n' i' s y q.
Proof.
  revert n i. induction todo as [|[[s y] q] todo IH]; intros n i; simpl; [tauto|].
  intros [<-|Hin].
  - exists n, i, s, y, q. split; [now left | reflexivity].
  - destruct (IH _ _ Hin) as (n' & i' & s' & y' & q' & Hin' & ->).
    exists n', i', s', y', q'. split; [now right | reflexivity].
Qed.

(** Filtering the inserted rows on quarter and year is filtering the plan. *)
Lemma rows_from_filter (host : SampleData.Host) (target : string) (n i : nat)
    (todo : list (SampleData.Stock * Z * string)) (g : string -> Z -> bool) :
  map stock_symbol
    (List.filter (fun h => g (quarter h) (year h))
       (SampleData.rows_from host target n i todo))
  = map (fun p => SampleData.symbol (fst (fst p)))
      (List.filter (fun p => g (snd p) (snd (fst p))) todo).
Proof.
  revert n i. induction todo as [|[[s y] q] todo IH]; intros n i; simpl;
    [reflexivity|].
  destruct (g q y); simpl; now rewrite IH.
Qed.

Lemma rows_from_quarterKey (host : SampleData.Host) (target : string) (n i : nat)
    (todo : list (SampleData.Stock * Z * string)) :
  map quarterKey (SampleData.rows_from host target n i todo)
  = map (fun p => (snd p +:+ " " +:+ pretty (snd (fst p)))%string) todo.
Proof.
  revert n i. induction todo as [|[[s y] q] todo IH]; intros n i; simpl;
    [reflexivity | now rewrite IH].
Qed.

Lemma filter_all {A} (f : A -> bool) (l : list A) :
  (forall x, In x l -> f x = true) -> List.filter f l = l.
Proof.
  induction l as [|x l IH]; intros H; simpl; [reflexivity|].
  rewrite (H x) by now left. f_equal. apply IH. intros y Hy. apply H. now right.
Qed.

(** X16. Whatever [random()] returns, seeding the portfolio of an existing
    user never violates a constraint of the table: the function completes,
    appends 96 rows to the rows already there, each owned by the target user,
    each satisfying the [CHECK] constraints, each for one of the twelve
    stocks with a number of shares within 10 of the stock's base number.
    For a user that does not exist the first insert fails and nothing is
    inserted. *)
Theorem seeding_succeeds
    (host : SampleData.Host) (target : string) (db : SampleData.Db) :
  SampleData.sound_host host ->
  (In target (SampleData.users db) ->
   exists rows,
     SampleData.create_sample_portfolio_data host target db
     = Some {| SampleData.users := SampleData.users db;
               SampleData.portfolio_holdings :=
                 SampleData.portfolio_holdings db ++ rows;
               SampleData.random_calls := (SampleData.random_calls db + 384)%nat;
               SampleData.uuid_calls := (SampleData.uuid_calls db + 96)%nat |}
     /\ length rows = 96%nat
     /\ Forall (fun h =>
                  user_id h = target /\ holding_checks h
                  /\ exists s, In s SampleData.stocks_values
                               /\ stock_symbol h = SampleData.symbol s
                               /\ SampleData.base_shares s - 10 <= shares h
                                  <= SampleData.base_shares s + 10) rows)
  /\ (~ In target (SampleData.users db) ->
      SampleData.create_sample_portfolio_data host target db = None).
Proof.
  intros Hhost. split.
  - intros Htarget.
    exists (SampleData.rows_from host target (SampleData.random_calls db)
              (SampleData.uuid_calls db) SampleData.plan).
    split; [|split].
    + rewrite create_sample_runs_plan.
      now rewrite (run_plan host target _ db Hhost Htarget plan_ok).
    + now rewrite rows_from_length.
    + apply List.Forall_forall. intros h Hh.
      apply rows_from_In in Hh as (n & i & s & y & q & Hin & ->).
      pose proof plan_ok as Hok. rewrite List.Forall_forall in Hok.
      destruct (Hok _ Hin) as [Hs Hy]. cbn [fst snd] in Hs, Hy.
      split; [reflexivity|]. split; [now apply sample_row_checks|].
      exists s. split; [|split; [reflexivity | now apply sample_row_shares]].
      unfold SampleData.plan in Hin.
      apply in_flat_map in Hin as (s' & Hs' & Hin).
      apply in_flat_map in Hin as (y' & _ & Hin).
      now apply in_map_iff in Hin as (q' & [= <- _ _] & _).
  - intros Hnot.
    assert (Hfk : existsb (String.eqb target) (SampleData.users db) = false).
    { destruct (existsb (String.eqb target) (SampleData.users db)) eqn:E;
        [|reflexivity]. now apply existsb_eqb_In in E. }
    unfold SampleData.create_sample_portfolio_data, SampleData.stocks_values.
    cbn [SampleData.for_loop SampleData.years SampleData.quarters].
    unfold SampleData.insert_sample at 1. unfold SampleData.insert at 1.
    cbn [user_id SampleData.sample_row SampleData.users]. now rewrite Hfk.
Qed.

Lemma steady_host_sound : SampleData.sound_host SampleData.steady_host.
Proof.
  split; [|split].
  - intros n. split; [discriminate | reflexivity].
  - intros [[num den] Hcanon] lo hi Hlo Hhi.
    unfold Qcle, Qle in Hlo, Hhi. cbn in Hlo, Hhi |- *.
    split.
    + apply Z.div_le_lower_bound; lia.
    + apply Z.lt_succ_r. apply Z.div_lt_upper_bound; lia.
  - intros x n H. exact H.
Qed.

Lemma seeding_succeeds_witness :
  let db := {| SampleData.users := ["u1"%string]; SampleData.portfolio_holdings := [];
               SampleData.random_calls := 0; SampleData.uuid_calls := 0 |} in
  (SampleData.sound_host SampleData.steady_host /\ In "u1"%string (SampleData.users db))
  /\ exists db',
       SampleData.create_sample_portfolio_data SampleData.steady_host "u1" db
       = Some db'
       /\ length (SampleData.portfolio_holdings db') = 96%nat.
Proof.
  intros db.
  assert (Hin : In "u1"%string (SampleData.users db)) by (now left).
  split; [split; [exact steady_host_sound | exact Hin]|].
  destruct (proj1 (seeding_succeeds SampleData.steady_host "u1" db steady_host_sound)
              Hin) as (rows & Hrun & Hlen & _).
  eexists. split; [exact Hrun | exact Hlen].
Defined.

Lemma satisfies_quarter_year (target : string) (q : string) (y : Z)
    (h : PortfolioHolding) :
  q <> EmptyString -> y <> 0 -> user_id h = target ->
  satisfies (q_filters (portfolioQuery target (Some q) (Some y))) h
  = String.eqb (quarter h) q && Z.eqb (year h) y.
Proof.
  intros Hq Hy Hu. apply eq_true_iff_eq.
  rewrite satisfies_portfolioQuery, andb_true_iff, String.eqb_eq, Z.eqb_eq.
  split.
  - intros (_ & Hfq & Hfy). split; [now apply Hfq | now apply Hfy].
  - intros [Hfq Hfy]. split; [exact Hu|]. split.
    + now intros q' [= <-] _.
    + now intros y' [= <-] _.
Qed.

(** X17. After seeding a user that had no holdings, the service lists
    eight quarters, in descending order of the label and so by quarter name
    before year ("Q4 2024", "Q4 2023", "Q3 2024", ... "Q1 2023", which is
    not the order of time), and in each of them the user holds each of the
    twelve stocks exactly once, whatever [random()] returned. *)
Theorem seeded_portfolio_covers_quarters
    (host : SampleData.Host) (target : string) (db db' : SampleData.Db) (w : World) :
  SampleData.sound_host host ->
  In target (SampleData.users db) ->
  (forall h, In h (SampleData.portfolio_holdings db) -> user_id h <> target) ->
  SampleData.create_sample_portfolio_data host target db = Some db' ->
  getAvailableQuarters (postgrest (SampleData.portfolio_holdings db')) target w
  = (Fulfilled ["Q4 2024"; "Q4 2023"; "Q3 2024"; "Q3 2023";
                "Q2 2024"; "Q2 2023"; "Q1 2024"; "Q1 2023"]%string, w)
  /\ (forall q y, In q SampleData.quarters -> In y SampleData.years ->
        Permutation
          (map stock_symbol
             (valueOr []
                (fst (getUserPortfolio (postgrest (SampleData.portfolio_holdings db'))
                        target (Some q) (Some y) w))))
          (map SampleData.symbol SampleData.stocks_values)).
Proof.
  intros Hhost Htarget Hfresh Hrun.
  rewrite create_sample_runs_plan in Hrun.
  rewrite (run_plan host target _ db Hhost Htarget plan_ok) in Hrun.
  apply (f_equal (fun o => match o with
                           | Some d => SampleData.portfolio_holdings d
                           | None => []
                           end)) in Hrun.
  cbn [SampleData.portfolio_holdings] in Hrun. rewrite <- Hrun. clear Hrun db'.
  set (rows := SampleData.rows_from host target (SampleData.random_calls db)
                 (SampleData.uuid_calls db) SampleData.plan).
  assert (Hrows : forall h, In h rows -> user_id h = target).
  { intros h Hh. unfold rows in Hh.
    now apply rows_from_In in Hh as (n & i & s & y & q & _ & ->). }
  split.
  - rewrite getAvailableQuarters_resolves by reflexivity.
    cbn [resp_data postgrest]. rewrite run_quartersQuery, List.filter_app.
    rewrite (filter_user_nil _ _ Hfresh), filter_all
      by (intros h Hh; apply String.eqb_eq; now apply Hrows).
    cbn [app]. unfold quartersOf. cbn [option_map orEmpty].
    unfold rows. rewrite rows_from_quarterKey.
    apply (f_equal (fun l => (Fulfilled l, w))). vm_compute. reflexivity.
  - intros q y Hq Hy.
    assert (Hqne : q <> EmptyString).
    { destruct Hq as [<-|[<-|[<-|[<-|[]]]]]; discriminate. }
    assert (Hyne : y <> 0).
    { destruct Hy as [<-|[<-|[]]]; discriminate. }
    rewrite getUserPortfolio_resolves by reflexivity.
    cbn [fst valueOr orEmpty resp_data postgrest].
    rewrite run_query_perm, List.filter_app.
    rewrite (filter_none _ (SampleData.portfolio_holdings db)).
    2:{ intros h Hh.
        destruct (satisfies _ h) eqn:Hs; [|reflexivity].
        apply satisfies_portfolioQuery in Hs as (Hu & _).
        now destruct (Hfresh h Hh). }
    cbn [app].
    rewrite (filter_ext_in _ (fun h => String.eqb (quarter h) q && Z.eqb (year h) y))
      by (intros h Hh; apply satisfies_quarter_year; auto).
    unfold rows.
    rewrite (rows_from_filter host target _ _ _
               (fun q' y' => String.eqb q' q && Z.eqb y' y)).
    destruct Hq as [<-|[<-|[<-|[<-|[]]]]]; destruct Hy as [<-|[<-|[]]];
      vm_compute; reflexivity.
Qed.

Lemma seeded_portfolio_covers_quarters_witness :
  let db := {| SampleData.users := ["u1"%string]; SampleData.portfolio_holdings := [];
               SampleData.random_calls := 0; SampleData.uuid_calls := 0 |} in
  (SampleData.sound_host SampleData.steady_host
   /\ In "u1"%string (SampleData.users db)
   /\ (forall h, In h (SampleData.portfolio_holdings db) -> user_id h <> "u1"%string))
  /\ forall db',
       SampleData.create_sample_portfolio_data SampleData.steady_host "u1" db
       = Some db' ->
       getAvailableQuarters (postgrest (SampleData.portfolio_holdings db')) "u1" w0
       = (Fulfilled ["Q4 2024"; "Q4 2023"; "Q3 2024"; "Q3 2023";
                     "Q2 2024"; "Q2 2023"; "Q1 2024"; "Q1 2023"]%string, w0).
Proof.
  intros db.
  assert (Hin : In "u1"%string (SampleData.users db)) by (now left).
  assert (Hfresh : forall h, In h (SampleData.portfolio_holdings db) ->
                             user_id h <> "u1"%string) by (intros h []).
  split; [split; [exact steady_host_sound | split; assumption]|].
  intros db' Hrun.
  exact (proj1 (seeded_portfolio_covers_quarters SampleData.steady_host "u1" db db' w0
                  steady_host_sound Hin Hfresh Hrun)).
Defined.

(** ** The order of the listing is not the order of time *)

Lemma compare_append_same_length (a b s t : string) :
  String.length a = String.length b ->
  String.compare a b = Lt ->
  String.compare (a +:+ s) (b +:+ t) = Lt.
Proof.
  revert b. induction a as [|c a IH]; intros [|d b]; simpl; try discriminate.
  intros [= Hlen]. destruct (Ascii.compare c d); try congruence. now apply IH.
Qed.

Lemma str_desc_before (l : list string) (a b : string) :
  StronglySorted str_desc l -> In a l -> In b l -> str_desc b a ->
  exists l1 l2 l3, l = l1 ++ b :: l2 ++ a :: l3.
Proof.
  intros Hl Ha Hb Hba.
  apply in_split in Hb as (l1 & l2 & ->).
  assert (Ha2 : In a l2).
  { apply in_app_or in Ha as [Ha|[<-|Ha]]; [| |exact Ha].
    - exfalso. clear -Hl Ha Hba. induction l1 as [|x l1 IH]; [destruct Ha|].
      inversion Hl as [|? ? Hs Hall]; subst. destruct Ha as [<-|Ha].
      + rewrite List.Forall_forall in Hall.
        apply (str_desc_asym x b); [|exact Hba]. apply Hall.
        apply in_or_app. right. now left.
      + now apply IH.
    - now destruct (str_desc_irrefl b). }
  apply in_split in Ha2 as (l2a & l3 & ->). now exists l1, l2a, l3.
Qed.

(** X18. The listing orders by the name of the quarter before the year: of
    two holdings whose quarter names have the same length, the one with the
    greater name is listed first whatever the two years are, so that a
    holding of "Q4" of an earlier year comes before a holding of "Q1" of a
    later year. *)
Theorem listing_orders_by_quarter_name
    (hs : list PortfolioHolding) (h1 h2 : PortfolioHolding) :
  In h1 hs -> In h2 hs ->
  String.length (quarter h1) = String.length (quarter h2) ->
  String.compare (quarter h1) (quarter h2) = Lt ->
  exists l1 l2 l3,
    quartersOf (Some hs) = l1 ++ quarterKey h2 :: l2 ++ quarterKey h1 :: l3.
Proof.
  intros H1 H2 Hlen Hlt.
  apply str_desc_before.
  - apply quartersOf_sorted.
  - apply quartersOf_In. now apply in_map.
  - apply quartersOf_In. now apply in_map.
  - unfold str_desc, quarterKey. now apply compare_append_same_length.
Qed.

Lemma listing_orders_by_quarter_name_witness :
  let a := mkHolding "a" "u1" "TCS" 1 (Qc_of_Z 1) (Qc_of_Z 1) "Q1" 2024 1 in
  let b := mkHolding "b" "u1" "TCS" 1 (Qc_of_Z 1) (Qc_of_Z 1) "Q4" 2023 2 in
  (In a [a; b] /\ In b [a; b]
   /\ String.length (quarter a) = String.length (quarter b)
   /\ String.compare (quarter a) (quarter b) = Lt)
  /\ exists l1 l2 l3,
       quartersOf (Some [a; b]) = l1 ++ "Q4 2023"%string :: l2 ++ "Q1 2024"%string :: l3.
Proof.
  intros a b.
  assert (Ha : In a [a; b]) by (now left).
  assert (Hb : In b [a; b]) by (right; now left).
  split; [repeat split; assumption|].
  exact (listing_orders_by_quarter_name [a; b] a b Ha Hb eq_refl eq_refl).
Defined.

(** ** Row order and the two aggregations *)





